(** * Carbon credit monitoring: the derivation engine and its API

    A shallow embedding of [database/carbon_schema.sql] (the tables, the
    stored procedures [calculate_carbon_credits] and
    [check_emission_threshold], the trigger [after_emission_insert], the
    sample rows) and of the parts of [backend/server.js] in front of it
    ([authenticateToken], [POST /api/emissions], [GET /api/dashboard/stats]).

    Modelling conventions.
    - SQL [FLOAT] and JavaScript numbers are exact rationals ([Q]): rounding
      is not modelled.
    - SQL [NULL] and JavaScript [undefined] are [None]; a comparison with
      [NULL] is unknown, and [IF] and [CASE WHEN] take a branch only when
      the condition is true.
    - A [DATETIME] is the number [yyyymmddHHMMSS] that MySQL gives it in a
      numeric context, a [DATE] the number [yyyymmdd].
    - [NOW()] and [RAND()] are read from an environment supplied per
      statement, [Date.now()] and [Math.random()] from one supplied per
      request.
    - A statement runs in the monad [SQL]: it reads and writes the store and
      may raise an error, and then the whole statement, its trigger
      included, leaves the store as it was.
    - Strings are compared exactly.
    - The procedures are followed as they are written. In particular the
      [UPDATE Emission_Data] of [check_emission_threshold] is carried out
      also when the procedure runs inside the trigger on [Emission_Data];
      the server's own restriction on changing the table a trigger fires on
      (MySQL error 1442) is not part of this model. *)

From Stdlib Require Import ZArith QArith Qround String Ascii List Bool Lia Lqa.
From Stdlib Require Import DecimalString Qabs Permutation Sorted.
Import ListNotations.

Local Open Scope Z_scope.

(** ** Numbers, NULL and the built-in SQL functions *)

Definition Qgt_bool (x y : Q) : bool := negb (Qle_bool x y).
Definition Qlt_bool (x y : Q) : bool := negb (Qle_bool y x).

Definition sql_sub (a b : option Q) : option Q :=
  match a, b with
  | Some x, Some y => Some (x - y)%Q
  | _, _ => None
  end.

Definition sql_mul (a b : option Q) : option Q :=
  match a, b with
  | Some x, Some y => Some (x * y)%Q
  | _, _ => None
  end.

(** Division by zero yields [NULL]. *)
Definition sql_div (a b : option Q) : option Q :=
  match a, b with
  | Some x, Some y => if Qeq_bool y 0 then None else Some (x / y)%Q
  | _, _ => None
  end.

Definition sql_gt (a b : option Q) : option bool :=
  match a, b with
  | Some x, Some y => Some (Qgt_bool x y)
  | _, _ => None
  end.

Definition sql_lt (a b : option Q) : option bool :=
  match a, b with
  | Some x, Some y => Some (Qlt_bool x y)
  | _, _ => None
  end.

(** The truth test of [IF] and [WHEN]: unknown counts as false. *)
Definition is_true3 (c : option bool) : bool :=
  match c with
  | Some true => true
  | _ => false
  end.

Definition decimal (z : Z) : string := NilZero.string_of_int (Z.to_int z).

Definition CONCAT (l : list string) : string :=
  fold_right String.append EmptyString l.

Definition FLOOR (q : Q) : Z := Qfloor q.

Record env := { NOW : Z; RAND : Q }.

Definition CURDATE (e : env) : Z := NOW e / 1000000.

(** [DATE_FORMAT(t, '%Y%m%d')] and [DATE_FORMAT(t, '%Y%m%d%H%i%s')]. *)
Definition DATE_FORMAT_Ymd (t : Z) : string := decimal (t / 1000000).
Definition DATE_FORMAT_YmdHis (t : Z) : string := decimal t.

(** ** Tables *)

Inductive credit_status := earned | deficit | neutral.
Inductive alert_severity := low | medium | high | critical.

(** The text of an alert keeps the two arguments of its template
    ['CO2 emission exceeded threshold: <v> kg/hour (Limit: <t> kg/hour)']. *)
Inductive alert_text := exceeded_threshold_text (v_co2_value p_threshold : Q).

Module User.
Record row := mk
  { user_id : Z; name : string; email : string; role : string;
    password_hash : string; created_at : option Z; updated_at : option Z;
    is_active : option bool }.
Definition default_is_active : option bool := Some true.
End User.

Module Sensor.
Record row := mk
  { sensor_id : string; sensor_type : string; model : option string;
    installation_date : option Z; status : option string;
    location : option string; user_id : Z; last_calibration : option Z;
    calibration_interval_days : option Z }.
Definition default_calibration_interval_days : option Z := Some 90.
End Sensor.

Module Emission_Data.
Record row := mk
  { emission_id : string; timestamp : Z; co2_value : Q;
    pm25_value : option Q; temperature : option Q; humidity : option Q;
    sensor_id : string; alert_id : option string }.
End Emission_Data.

Module Carbon_Credit.
Record row := mk
  { credit_id : string; report_id : option string; calculated_date : Z;
    emission_value : Q; allowed_limit : Q; credit_amount : Q;
    status : credit_status }.
End Carbon_Credit.

Module Credit_Emission_Map.
Record row := mk
  { map_id : string; credit_id : string; emission_id : string;
    weight_factor : option Q; included_flag : option bool }.
Definition default_weight_factor : option Q := Some 1%Q.
Definition default_included_flag : option bool := Some true.
End Credit_Emission_Map.

Module Alert.
Record row := mk
  { alert_id : string; alert_type : string; threshold_value : Q;
    alert_message : alert_text; created_at : option Z;
    is_read : option bool; user_id : Z; severity : option alert_severity }.
Definition default_is_read : option bool := Some false.
End Alert.

Record db := mkdb
  { db_User : list User.row;
    db_Sensor : list Sensor.row;
    db_Emission_Data : list Emission_Data.row;
    db_Carbon_Credit : list Carbon_Credit.row;
    db_Credit_Emission_Map : list Credit_Emission_Map.row;
    db_Alert : list Alert.row }.

Definition with_User (d : db) (t : list User.row) : db :=
  mkdb t (db_Sensor d) (db_Emission_Data d) (db_Carbon_Credit d)
       (db_Credit_Emission_Map d) (db_Alert d).

Definition with_Emission_Data (d : db) (t : list Emission_Data.row) : db :=
  mkdb (db_User d) (db_Sensor d) t (db_Carbon_Credit d)
       (db_Credit_Emission_Map d) (db_Alert d).

Definition with_Carbon_Credit (d : db) (t : list Carbon_Credit.row) : db :=
  mkdb (db_User d) (db_Sensor d) (db_Emission_Data d) t
       (db_Credit_Emission_Map d) (db_Alert d).

Definition with_Credit_Emission_Map (d : db)
    (t : list Credit_Emission_Map.row) : db :=
  mkdb (db_User d) (db_Sensor d) (db_Emission_Data d) (db_Carbon_Credit d)
       t (db_Alert d).

Definition with_Alert (d : db) (t : list Alert.row) : db :=
  mkdb (db_User d) (db_Sensor d) (db_Emission_Data d) (db_Carbon_Credit d)
       (db_Credit_Emission_Map d) t.

(** ** Statements: state and errors *)

Definition SQL (A : Type) : Type := db -> option (A * db).

Definition ret {A} (a : A) : SQL A := fun d => Some (a, d).

Definition bind {A B} (m : SQL A) (k : A -> SQL B) : SQL B :=
  fun d =>
    match m d with
    | Some (a, d') => k a d'
    | None => None
    end.

Definition signal {A} : SQL A := fun _ => None.

Notation "x <- m ;; k" := (bind m (fun x => k))
  (at level 61, m at next level, right associativity).
Notation "m ;;; k" := (bind m (fun _ => k))
  (at level 61, right associativity).

(** [SELECT ... INTO]: no row leaves the variables [NULL], several rows are
    an error. *)
Definition select_into {A} (rows : list A) : SQL (option A) :=
  match rows with
  | [] => ret None
  | [r] => ret (Some r)
  | _ => signal
  end.

Definition has_User (uid : Z) (d : db) : bool :=
  existsb (fun u => User.user_id u =? uid) (db_User d).

Definition has_Sensor (sid : string) (d : db) : bool :=
  existsb (fun s => String.eqb (Sensor.sensor_id s) sid) (db_Sensor d).

Definition has_Emission_Data (eid : string) (d : db) : bool :=
  existsb (fun r => String.eqb (Emission_Data.emission_id r) eid)
          (db_Emission_Data d).

Definition has_Carbon_Credit (cid : string) (d : db) : bool :=
  existsb (fun c => String.eqb (Carbon_Credit.credit_id c) cid)
          (db_Carbon_Credit d).

Definition has_Credit_Emission_Map (mid : string) (d : db) : bool :=
  existsb (fun m => String.eqb (Credit_Emission_Map.map_id m) mid)
          (db_Credit_Emission_Map d).

Definition has_Alert (aid : string) (d : db) : bool :=
  existsb (fun a => String.eqb (Alert.alert_id a) aid) (db_Alert d).

(** [INSERT INTO User (name, email, role, password_hash)] of the
    registration route: [email] is unique; [next_id] is the value
    [AUTO_INCREMENT] hands out, and is a fresh key. *)
Definition insert_User (e : env) (next_id : Z)
    (name email role password_hash : string) : SQL Z :=
  fun d =>
    if existsb (fun u => String.eqb (User.email u) email) (db_User d) then None
    else if has_User next_id d then None
    else Some (next_id, with_User d
           (db_User d ++
            [User.mk next_id name email role password_hash (Some (NOW e))
               (Some (NOW e)) User.default_is_active])).

(** [INSERT INTO Carbon_Credit (credit_id, calculated_date, emission_value,
    allowed_limit, credit_amount, status)]: the three [FLOAT] columns are
    [NOT NULL], [credit_id] is the primary key. *)
Definition insert_Carbon_Credit (credit_id : string) (calculated_date : Z)
    (emission_value allowed_limit credit_amount : option Q)
    (status : credit_status) : SQL unit :=
  fun d =>
    match emission_value, allowed_limit, credit_amount with
    | Some ev, Some al, Some ca =>
        if has_Carbon_Credit credit_id d then None
        else Some (tt, with_Carbon_Credit d
               (db_Carbon_Credit d ++
                [Carbon_Credit.mk credit_id None calculated_date ev al ca status]))
    | _, _, _ => None
    end.

(** [INSERT INTO Credit_Emission_Map (map_id, credit_id, emission_id)]:
    primary key [map_id], foreign keys to [Carbon_Credit] and
    [Emission_Data]; the other two columns take their defaults. *)
Definition insert_Credit_Emission_Map (map_id credit_id emission_id : string)
    : SQL unit :=
  fun d =>
    if has_Credit_Emission_Map map_id d then None
    else if negb (has_Carbon_Credit credit_id d) then None
    else if negb (has_Emission_Data emission_id d) then None
    else Some (tt, with_Credit_Emission_Map d
           (db_Credit_Emission_Map d ++
            [Credit_Emission_Map.mk map_id credit_id emission_id
               Credit_Emission_Map.default_weight_factor
               Credit_Emission_Map.default_included_flag])).

(** [INSERT INTO Alert (alert_id, alert_type, threshold_value, alert_message,
    user_id, severity)]: primary key [alert_id], foreign key to [User];
    [created_at] and [is_read] take their defaults. *)
Definition insert_Alert (e : env) (alert_id alert_type : string)
    (threshold_value : option Q) (alert_message : option alert_text)
    (user_id : option Z) (severity : option alert_severity) : SQL unit :=
  fun d =>
    match threshold_value, alert_message, user_id with
    | Some tv, Some msg, Some uid =>
        if has_Alert alert_id d then None
        else if negb (has_User uid d) then None
        else Some (tt, with_Alert d
               (db_Alert d ++
                [Alert.mk alert_id alert_type tv msg (Some (NOW e))
                   Alert.default_is_read uid severity]))
    | _, _, _ => None
    end.

(** [UPDATE Emission_Data SET alert_id = v WHERE emission_id = p]. *)
Definition set_alert_id (v : string) (r : Emission_Data.row) : Emission_Data.row :=
  Emission_Data.mk (Emission_Data.emission_id r) (Emission_Data.timestamp r)
    (Emission_Data.co2_value r) (Emission_Data.pm25_value r)
    (Emission_Data.temperature r) (Emission_Data.humidity r)
    (Emission_Data.sensor_id r) (Some v).

Definition link_alert (v_alert_id p_emission_id : string)
    (l : list Emission_Data.row) : list Emission_Data.row :=
  map (fun r => if String.eqb (Emission_Data.emission_id r) p_emission_id
                then set_alert_id v_alert_id r else r) l.

Definition update_Emission_Data_alert_id (v_alert_id p_emission_id : string)
    : SQL unit :=
  fun d =>
    Some (tt, with_Emission_Data d
                (link_alert v_alert_id p_emission_id (db_Emission_Data d))).

(** ** Stored procedures *)

(** [SELECT co2_value FROM Emission_Data WHERE emission_id = p]. *)
Definition select_co2_value (p_emission_id : string) (d : db) : list Q :=
  map Emission_Data.co2_value
    (filter (fun r => String.eqb (Emission_Data.emission_id r) p_emission_id)
            (db_Emission_Data d)).

Definition calculate_carbon_credits (e : env) (p_emission_id : string)
    (p_allowed_limit : Q) : SQL (option Q * credit_status) :=
  fun d0 =>
  (v_emission_value <- select_into (select_co2_value p_emission_id d0) ;;
   let p_credit_amount :=
     sql_div (sql_sub (Some p_allowed_limit) v_emission_value) (Some 1000%Q) in
   let p_status :=
     if is_true3 (sql_gt p_credit_amount (Some 0%Q)) then earned
     else if is_true3 (sql_lt p_credit_amount (Some 0%Q)) then deficit
     else neutral in
   let v_credit_id :=
     CONCAT ["CC_"%string; DATE_FORMAT_Ymd (NOW e); "_"%string;
             decimal (FLOOR (RAND e * 10000))] in
   insert_Carbon_Credit v_credit_id (CURDATE e) v_emission_value
     (Some p_allowed_limit) p_credit_amount p_status ;;;
   insert_Credit_Emission_Map (CONCAT ["MAP_"%string; v_credit_id])
     v_credit_id p_emission_id ;;;
   ret (p_credit_amount, p_status)) d0.

(** [SELECT e.co2_value, e.sensor_id, s.user_id FROM Emission_Data e
    JOIN Sensor s ON e.sensor_id = s.sensor_id WHERE e.emission_id = p]. *)
Definition select_emission_details (p_emission_id : string) (d : db)
    : list (Q * string * Z) :=
  flat_map
    (fun r =>
       map (fun s => (Emission_Data.co2_value r, Emission_Data.sensor_id r,
                      Sensor.user_id s))
           (filter (fun s => String.eqb (Emission_Data.sensor_id r)
                                        (Sensor.sensor_id s))
                   (db_Sensor d)))
    (filter (fun r => String.eqb (Emission_Data.emission_id r) p_emission_id)
            (db_Emission_Data d)).

Definition check_emission_threshold (e : env) (p_emission_id : string)
    (p_threshold : Q) : SQL unit :=
  fun d0 =>
  (details <- select_into (select_emission_details p_emission_id d0) ;;
   let v_co2_value := option_map (fun x => fst (fst x)) details in
   let v_user_id := option_map snd details in
   if is_true3 (sql_gt v_co2_value (Some p_threshold)) then
     let v_alert_id :=
       CONCAT ["ALERT_"%string; DATE_FORMAT_YmdHis (NOW e); "_"%string;
               decimal (FLOOR (RAND e * 1000))] in
     insert_Alert e v_alert_id "threshold_exceeded" (Some p_threshold)
       (option_map (fun v => exceeded_threshold_text v p_threshold) v_co2_value)
       v_user_id
       (Some
          (if is_true3 (sql_gt v_co2_value
                          (sql_mul (Some p_threshold) (Some (12 # 10))))
           then critical
           else if is_true3 (sql_gt v_co2_value
                               (sql_mul (Some p_threshold) (Some (11 # 10))))
           then high
           else medium)) ;;;
     update_Emission_Data_alert_id v_alert_id p_emission_id
   else ret tt) d0.

(** ** The trigger and the insertion that fires it *)

Definition v_threshold : Q := 1000.

Definition after_emission_insert (e : env) (NEW : Emission_Data.row) : SQL unit :=
  check_emission_threshold e (Emission_Data.emission_id NEW) v_threshold ;;;
  if Qle_bool (Emission_Data.co2_value NEW) v_threshold then
    calculate_carbon_credits e (Emission_Data.emission_id NEW) v_threshold ;;;
    ret tt
  else ret tt.

(** [INSERT INTO Emission_Data (emission_id, timestamp, co2_value,
    pm25_value, temperature, humidity, sensor_id)]: [co2_value] and
    [sensor_id] are [NOT NULL], [emission_id] is the primary key,
    [sensor_id] a foreign key to [Sensor]; [alert_id] is left [NULL]. The
    row trigger runs once the row is in the table, inside the statement. *)
Definition insert_Emission_Data (e : env) (emission_id : string) (timestamp : Z)
    (co2_value pm25_value temperature humidity : option Q)
    (sensor_id : option string) : SQL unit :=
  fun d =>
    match co2_value, sensor_id with
    | Some co2, Some sid =>
        if has_Emission_Data emission_id d then None
        else if negb (has_Sensor sid d) then None
        else
          let NEW := Emission_Data.mk emission_id timestamp co2 pm25_value
                       temperature humidity sid None in
          after_emission_insert e NEW
            (with_Emission_Data d (db_Emission_Data d ++ [NEW]))
    | _, _ => None
    end.

(** ** The sample rows of the schema script *)

Definition sample_User (id : Z) (name email role : string) : User.row :=
  User.mk id name email role "$2b$10$demo_hash_placeholder" None None
    User.default_is_active.

Definition sample_Sensor (id model location : string) (installed uid : Z)
    : Sensor.row :=
  Sensor.mk id "CO2" (Some model) (Some installed) (Some "active"%string)
    (Some location) uid None Sensor.default_calibration_interval_days.

Definition sample_db : db :=
  mkdb
    [sample_User 1 "Demo Industries Ltd." "demo@industry.com" "admin";
     sample_User 2 "Green Tech Manufacturing" "admin@greentech.com" "admin";
     sample_User 3 "EcoFactory Corp" "operator@ecofactory.com" "operator"]
    [sample_Sensor "SENSOR_001" "NDIR-CO2-500" "Main Chimney" 20240115 1;
     sample_Sensor "SENSOR_002" "NDIR-CO2-500" "Secondary Vent" 20240115 1;
     sample_Sensor "SENSOR_003" "NDIR-CO2-Pro" "Quality Control" 20240201 1;
     sample_Sensor "SENSOR_004" "NDIR-CO2-500" "Production Line A" 20240120 2]
    [] [] [] [].

(** ** backend/server.js *)

(** [s.split(sep)] for a separator of one character. *)
Fixpoint split (sep : ascii) (s : string) : list string :=
  match s with
  | EmptyString => [EmptyString]
  | String c s' =>
      if Ascii.eqb c sep then EmptyString :: split sep s'
      else match split sep s' with
           | [] => [String c EmptyString]
           | w :: ws => String c w :: ws
           end
  end.

Inductive json :=
| json_error (error : string)
| json_emission_recorded (message emission_id : string)
| json_stats (current_emission total_credits : Q)
             (active_sensors unread_alerts : nat).

Record response := { status : Z; payload : json }.

(** What [jwt.sign] puts in a token at login. *)
Record jwt_user := { user_id : Z; email : string; role : string }.

Record request (B : Type) := { authorization : option string; body : B }.
Arguments authorization {B} _.
Arguments body {B} _.

Record emission_body :=
  { sensor_id : option string; co2_value : option Q; pm25_value : option Q;
    temperature : option Q; humidity : option Q }.

Record js_env := { Date_now : Z; Math_random : Q }.

(** [x || 0] on a number. *)
Definition or_zero (x : Q) : Q := if Qeq_bool x 0 then 0%Q else x.

(** [ORDER BY key DESC LIMIT 1]; among rows with the same key the earliest
    in the table is kept. *)
Fixpoint order_by_desc_limit_1 {A} (key : A -> Z) (rows : list A) : option A :=
  match rows with
  | [] => None
  | r :: rest =>
      match order_by_desc_limit_1 key rest with
      | Some r' => if key r <? key r' then Some r' else Some r
      | None => Some r
      end
  end.

(** [SUM] over no row is [NULL]. *)
Definition SUM (l : list Q) : option Q :=
  match l with
  | [] => None
  | _ => Some (fold_right Qplus 0%Q l)
  end.

Definition COALESCE (a : option Q) (b : Q) : Q :=
  match a with
  | Some x => x
  | None => b
  end.

(** [FROM Emission_Data ed JOIN Sensor s ON ed.sensor_id = s.sensor_id
    WHERE s.user_id = ?]. *)
Definition emissions_of_user (uid : Z) (d : db)
    : list (Emission_Data.row * Sensor.row) :=
  flat_map
    (fun ed =>
       map (pair ed)
         (filter (fun s => String.eqb (Emission_Data.sensor_id ed)
                                      (Sensor.sensor_id s)
                           && (Sensor.user_id s =? uid))
                 (db_Sensor d)))
    (db_Emission_Data d).

(** [FROM Carbon_Credit cc JOIN Credit_Emission_Map cem ON cc.credit_id =
    cem.credit_id JOIN Emission_Data ed ON cem.emission_id = ed.emission_id
    JOIN Sensor s ON ed.sensor_id = s.sensor_id WHERE s.user_id = ?]. *)
Definition credits_of_user (uid : Z) (d : db)
    : list (Carbon_Credit.row * Credit_Emission_Map.row
            * Emission_Data.row * Sensor.row) :=
  flat_map
    (fun cc =>
       flat_map
         (fun cem =>
            flat_map
              (fun ed =>
                 map (fun s => (cc, cem, ed, s))
                   (filter (fun s => String.eqb (Emission_Data.sensor_id ed)
                                                (Sensor.sensor_id s)
                                     && (Sensor.user_id s =? uid))
                           (db_Sensor d)))
              (filter (fun ed => String.eqb (Credit_Emission_Map.emission_id cem)
                                            (Emission_Data.emission_id ed))
                      (db_Emission_Data d)))
         (filter (fun cem => String.eqb (Carbon_Credit.credit_id cc)
                                        (Credit_Emission_Map.credit_id cem))
                 (db_Credit_Emission_Map d)))
    (db_Carbon_Credit d).

(** [status = "active"] and [is_read = FALSE]. *)
Definition is_active (s : Sensor.row) : bool :=
  match Sensor.status s with
  | Some st => String.eqb st "active"
  | None => false
  end.

Definition is_unread (a : Alert.row) : bool :=
  match Alert.is_read a with
  | Some b => negb b
  | None => false
  end.

Inductive middleware := respond (r : response) | next (user : jwt_user).

Section Server.

(** [jwt.verify(token, process.env.JWT_SECRET, ...)]: the decoded user of a
    token that is well signed and not expired, an error otherwise. *)
Variable jwt_verify : string -> option jwt_user.

Definition authenticateToken (authHeader : option string) : middleware :=
  let token :=
    match authHeader with
    | None => None
    | Some EmptyString => Some EmptyString
    | Some h => nth_error (split " " h) 1
    end in
  match token with
  | None | Some EmptyString =>
      respond {| status := 401; payload := json_error "Access token required" |}
  | Some t =>
      match jwt_verify t with
      | None => respond {| status := 403; payload := json_error "Invalid token" |}
      | Some user => next user
      end
  end.

(** [app.METHOD(path, authenticateToken, handler)]. *)
Definition authenticated {B} (handler : jwt_user -> B -> db -> response * db)
    (req : request B) (d : db) : response * db :=
  match authenticateToken (authorization req) with
  | respond r => (r, d)
  | next user => handler user (body req) d
  end.

End Server.

Definition post_api_emissions (je : js_env) (e : env) (_ : jwt_user)
    (b : emission_body) (d : db) : response * db :=
  let emission_id :=
    CONCAT ["EM_"%string; decimal (Date_now je); "_"%string;
            decimal (Qfloor (Math_random je * 1000))] in
  match insert_Emission_Data e emission_id (NOW e) (co2_value b)
          (pm25_value b) (temperature b) (humidity b) (sensor_id b) d with
  | Some (_, d') =>
      ({| status := 201;
          payload := json_emission_recorded "Emission data recorded" emission_id |},
       d')
  | None =>
      ({| status := 500; payload := json_error "Failed to record emission" |}, d)
  end.

Definition get_api_dashboard_stats (user : jwt_user) (_ : unit) (d : db)
    : response * db :=
  let currentEmission :=
    order_by_desc_limit_1 (fun r => Emission_Data.timestamp (fst r))
      (emissions_of_user (user_id user) d) in
  let totalCredits :=
    COALESCE
      (SUM (map (fun r => Carbon_Credit.credit_amount (fst (fst (fst r))))
                (credits_of_user (user_id user) d))) 0%Q in
  let activeSensors :=
    length (filter (fun s => (Sensor.user_id s =? user_id user) && is_active s)
                   (db_Sensor d)) in
  let unreadAlerts :=
    length (filter (fun a => (Alert.user_id a =? user_id user) && is_unread a)
                   (db_Alert d)) in
  ({| status := 200;
      payload :=
        json_stats
          (match currentEmission with
           | Some r => or_zero (Emission_Data.co2_value (fst r))
           | None => 0%Q
           end)
          (or_zero totalCredits) activeSensors unreadAlerts |},
   d).

(** * Vocabulary of the statements *)

Local Open Scope Q_scope.

Arguments CONCAT : simpl never.
Arguments decimal : simpl never.

(** ** What the procedures generate *)

Definition credit_id_at (e : env) : string :=
  CONCAT ["CC_"%string; DATE_FORMAT_Ymd (NOW e); "_"%string;
          decimal (FLOOR (RAND e * 10000))].

Definition map_id_at (e : env) : string :=
  CONCAT ["MAP_"%string; credit_id_at e].

Definition alert_id_at (e : env) : string :=
  CONCAT ["ALERT_"%string; DATE_FORMAT_YmdHis (NOW e); "_"%string;
          decimal (FLOOR (RAND e * 1000))].

Definition status_of (amount : Q) : credit_status :=
  if Qgt_bool amount 0 then earned
  else if Qlt_bool amount 0 then deficit else neutral.

Definition severity_of (v t : Q) : alert_severity :=
  if Qgt_bool v (t * (12 # 10)) then critical
  else if Qgt_bool v (t * (11 # 10)) then high
  else medium.

Definition credit_row_at (e : env) (v L : Q) : Carbon_Credit.row :=
  Carbon_Credit.mk (credit_id_at e) None (CURDATE e) v L ((L - v) / 1000)
    (status_of ((L - v) / 1000)).

Definition map_row_at (e : env) (p_emission_id : string)
    : Credit_Emission_Map.row :=
  Credit_Emission_Map.mk (map_id_at e) (credit_id_at e) p_emission_id
    (Some 1) (Some true).

Definition alert_row_at (e : env) (v t : Q) (uid : Z) : Alert.row :=
  Alert.mk (alert_id_at e) "threshold_exceeded" t (exceeded_threshold_text v t)
    (Some (NOW e)) (Some false) uid (Some (severity_of v t)).

Definition sensors_of (sid : string) (d : db) : list Sensor.row :=
  filter (fun s => String.eqb sid (Sensor.sensor_id s)) (db_Sensor d).

Definition new_row (id : string) (ts : Z) (co2 : Q) (pm tp hu : option Q)
    (sid : string) : Emission_Data.row :=
  Emission_Data.mk id ts co2 pm tp hu sid None.

(** The store a successful insertion leaves, on either side of the
    trigger's test. *)
Definition compliant_outcome (e : env) (NEW : Emission_Data.row) (d : db) : db :=
  mkdb (db_User d) (db_Sensor d) (db_Emission_Data d ++ [NEW])
       (db_Carbon_Credit d ++
        [credit_row_at e (Emission_Data.co2_value NEW) v_threshold])
       (db_Credit_Emission_Map d ++
        [map_row_at e (Emission_Data.emission_id NEW)])
       (db_Alert d).

Definition breach_outcome (e : env) (NEW : Emission_Data.row) (uid : Z)
    (d : db) : db :=
  mkdb (db_User d) (db_Sensor d)
       (db_Emission_Data d ++ [set_alert_id (alert_id_at e) NEW])
       (db_Carbon_Credit d) (db_Credit_Emission_Map d)
       (db_Alert d ++
        [alert_row_at e (Emission_Data.co2_value NEW) v_threshold uid]).

(** ** Reachable stores

    The statements that write: an insertion into [Emission_Data] (from the
    API or from the serial bridge) and the registration of a user. A store
    is initial when nothing has been derived yet: users and sensors only. *)

Inductive step : db -> db -> Prop :=
| step_emission e id ts co2 pm tp hu sid d d' :
    insert_Emission_Data e id ts co2 pm tp hu sid d = Some (tt, d') ->
    step d d'
| step_user e next_id name email role password_hash d id d' :
    insert_User e next_id name email role password_hash d = Some (id, d') ->
    step d d'.

Definition initial (d : db) : Prop :=
  db_Emission_Data d = [] /\ db_Carbon_Credit d = [] /\
  db_Credit_Emission_Map d = [] /\ db_Alert d = [].

Inductive reachable : db -> Prop :=
| reachable_initial d : initial d -> reachable d
| reachable_step d d' : reachable d -> step d d' -> reachable d'.

Inductive steps : db -> db -> Prop :=
| steps_refl d : steps d d
| steps_cons d d' d'' : step d d' -> steps d' d'' -> steps d d''.

(** ** The linkage invariant *)

Definition links_of (c : Carbon_Credit.row) (d : db)
    : list Credit_Emission_Map.row :=
  filter (fun m => String.eqb (Carbon_Credit.credit_id c)
                              (Credit_Emission_Map.credit_id m))
         (db_Credit_Emission_Map d).

Definition credit_linked (d : db) (c : Carbon_Credit.row)
    (m : Credit_Emission_Map.row) : Prop :=
  Credit_Emission_Map.credit_id m = Carbon_Credit.credit_id c /\
  Credit_Emission_Map.weight_factor m = Some 1 /\
  Credit_Emission_Map.included_flag m = Some true /\
  exists r,
    In r (db_Emission_Data d) /\
    Emission_Data.emission_id r = Credit_Emission_Map.emission_id m /\
    Emission_Data.co2_value r = Carbon_Credit.emission_value c.

Definition compliant_credit (c : Carbon_Credit.row) : Prop :=
  0 <= Carbon_Credit.credit_amount c /\
  (Carbon_Credit.status c = earned \/ Carbon_Credit.status c = neutral) /\
  Carbon_Credit.emission_value c <= Carbon_Credit.allowed_limit c.

Definition alert_owner_has_sensor (d : db) (a : Alert.row) : Prop :=
  exists s, In s (db_Sensor d) /\ Sensor.user_id s = Alert.user_id a.

Record store_inv (d : db) : Prop :=
  { inv_credit_key : NoDup (map Carbon_Credit.credit_id (db_Carbon_Credit d));
    inv_links : Forall2 (credit_linked d) (db_Carbon_Credit d)
                        (db_Credit_Emission_Map d);
    inv_compliant : Forall compliant_credit (db_Carbon_Credit d);
    inv_alert_owner : Forall (alert_owner_has_sensor d) (db_Alert d) }.

(** ** Submissions and what they create *)

Record submission :=
  { sub_env : env; sub_emission_id : string; sub_timestamp : Z;
    sub_co2_value : option Q; sub_pm25_value : option Q;
    sub_temperature : option Q; sub_humidity : option Q;
    sub_sensor_id : option string }.

Definition submit_result (s : submission) : SQL unit :=
  insert_Emission_Data (sub_env s) (sub_emission_id s) (sub_timestamp s)
    (sub_co2_value s) (sub_pm25_value s) (sub_temperature s) (sub_humidity s)
    (sub_sensor_id s).

(** The store after a submission: a failed statement leaves it as it was. *)
Definition submit (s : submission) (d : db) : db :=
  match submit_result s d with
  | Some (_, d') => d'
  | None => d
  end.

Definition run (subs : list submission) (d : db) : db :=
  fold_left (fun d s => submit s d) subs d.

Definition created_credits (d d' : db) : nat :=
  (length (db_Carbon_Credit d') - length (db_Carbon_Credit d))%nat.

Definition created_alerts (d d' : db) : nat :=
  (length (db_Alert d') - length (db_Alert d))%nat.

Fixpoint credits_created_for (id : string) (subs : list submission) (d : db)
    : nat :=
  match subs with
  | [] => 0%nat
  | s :: rest =>
      ((if String.eqb (sub_emission_id s) id
        then created_credits d (submit s d) else 0)
       + credits_created_for id rest (submit s d))%nat
  end.

Fixpoint alerts_created_for (id : string) (subs : list submission) (d : db)
    : nat :=
  match subs with
  | [] => 0%nat
  | s :: rest =>
      ((if String.eqb (sub_emission_id s) id
        then created_alerts d (submit s d) else 0)
       + alerts_created_for id rest (submit s d))%nat
  end.

(** ** The API *)

Fixpoint has_char (c : ascii) (s : string) : bool :=
  match s with
  | EmptyString => false
  | String c' s' => Ascii.eqb c' c || has_char c s'
  end.

(** The second space-separated word of the header, when there is one and
    it is not empty. *)
Definition bearer_token (authHeader : option string) : option string :=
  match authHeader with
  | Some h =>
      match split " " h with
      | _ :: t :: _ => if String.eqb t "" then None else Some t
      | _ => None
      end
  | None => None
  end.

Definition unauthorized : response :=
  {| status := 401; payload := json_error "Access token required" |}.

Definition forbidden : response :=
  {| status := 403; payload := json_error "Invalid token" |}.

Definition failed_to_record : response :=
  {| status := 500; payload := json_error "Failed to record emission" |}.

Definition request_emission_id (je : js_env) : string :=
  CONCAT ["EM_"%string; decimal (Date_now je); "_"%string;
          decimal (Qfloor (Math_random je * 1000))].

Definition Qsum (l : list Q) : Q := fold_right Qplus 0 l.

(** The number of ways a credit reaches a sensor of the user: through a
    link row, the reading it names and that reading's sensor. *)
Definition path_count (uid : Z) (d : db) (cc : Carbon_Credit.row) : nat :=
  list_sum
    (map (fun cem =>
            list_sum
              (map (fun ed =>
                      length
                        (filter (fun s => String.eqb (Emission_Data.sensor_id ed)
                                                     (Sensor.sensor_id s)
                                          && (Sensor.user_id s =? uid)%Z)
                                (db_Sensor d)))
                   (filter (fun ed => String.eqb (Credit_Emission_Map.emission_id cem)
                                                 (Emission_Data.emission_id ed))
                           (db_Emission_Data d))))
         (filter (fun cem => String.eqb (Carbon_Credit.credit_id cc)
                                        (Credit_Emission_Map.credit_id cem))
                 (db_Credit_Emission_Map d))).

Definition reading_of_user (uid : Z) (d : db) (ed : Emission_Data.row) : Prop :=
  In ed (db_Emission_Data d) /\
  exists s, In s (db_Sensor d) /\
            Emission_Data.sensor_id ed = Sensor.sensor_id s /\
            Sensor.user_id s = uid.

Definition owns_no_sensor (uid : Z) (d : db) : Prop :=
  forall s, In s (db_Sensor d) -> Sensor.user_id s <> uid.

(** ** Sample inputs: the first and the fourth sample reading *)

Definition sample_env : env := {| NOW := 20240601080000; RAND := 1234 # 10000 |}.

Definition sample_850 : submission :=
  {| sub_env := sample_env;
     sub_emission_id := "EM_2024060101";
     sub_timestamp := 20240601080000;
     sub_co2_value := Some 850;
     sub_pm25_value := Some (352 # 10);
     sub_temperature := Some (285 # 10);
     sub_humidity := Some 65;
     sub_sensor_id := Some "SENSOR_001"%string |}.

Definition sample_1050 : submission :=
  {| sub_env := {| NOW := 20240602080000; RAND := 567 # 1000 |};
     sub_emission_id := "EM_2024060201";
     sub_timestamp := 20240602080000;
     sub_co2_value := Some 1050;
     sub_pm25_value := Some (553 # 10);
     sub_temperature := Some (298 # 10);
     sub_humidity := Some 62;
     sub_sensor_id := Some "SENSOR_001"%string |}.

(** The sample store with one reading in it and nothing derived, as the
    procedures find it when called on their own. *)
Definition stored (s : submission) (co2 : Q) : db :=
  with_Emission_Data sample_db
    [new_row (sub_emission_id s) (sub_timestamp s) co2 (sub_pm25_value s)
       (sub_temperature s) (sub_humidity s) "SENSOR_001"].

Definition sample_js_env : js_env :=
  {| Date_now := 1717228800000; Math_random := 42 # 1000 |}.

Definition demo_user : jwt_user :=
  {| user_id := 1; email := "demo@industry.com"; role := "admin" |}.

Definition eco_user : jwt_user :=
  {| user_id := 3; email := "operator@ecofactory.com"; role := "operator" |}.

Definition sample_verify (t : string) : option jwt_user :=
  if String.eqb t "demo-token" then Some demo_user else None.

Definition body_850 : emission_body :=
  {| sensor_id := Some "SENSOR_001"%string; co2_value := Some 850;
     pm25_value := Some (352 # 10); temperature := Some (285 # 10);
     humidity := Some 65 |}.

Definition body_without_sensor : emission_body :=
  {| sensor_id := None; co2_value := Some 850; pm25_value := None;
     temperature := None; humidity := None |}.

Definition body_unknown_sensor : emission_body :=
  {| sensor_id := Some "SENSOR_999"%string; co2_value := Some 850;
     pm25_value := None; temperature := None; humidity := None |}.

Definition body_without_co2 : emission_body :=
  {| sensor_id := Some "SENSOR_001"%string; co2_value := None;
     pm25_value := None; temperature := None; humidity := None |}.

Definition sample_both : db := run [sample_850; sample_1050] sample_db.

(** * The rest of the schema script and of the server *)

(** ** [ORDER BY] and [LIMIT]

    [ORDER_BY before rows] sorts by insertion: [before x y] says that [x]
    may stand before [y]. Rows that compare equal keep their table order.
    A [NULL] key sorts below every value. *)

Fixpoint insert_by {A} (before : A -> A -> bool) (x : A) (l : list A) : list A :=
  match l with
  | [] => [x]
  | y :: l' => if before x y then x :: l else y :: insert_by before x l'
  end.

Fixpoint ORDER_BY {A} (before : A -> A -> bool) (l : list A) : list A :=
  match l with
  | [] => []
  | x :: l' => insert_by before x (ORDER_BY before l')
  end.

Definition LIMIT {A} (n : nat) (l : list A) : list A := firstn n l.

Definition null_leb (a b : option Z) : bool :=
  match a, b with
  | None, _ => true
  | Some _, None => false
  | Some x, Some y => (x <=? y)%Z
  end.

Definition null_eqb (a b : option Z) : bool :=
  match a, b with
  | None, None => true
  | Some x, Some y => (x =? y)%Z
  | _, _ => false
  end.

(** [ORDER BY key DESC]. *)
Definition desc {A} (key : A -> option Z) (x y : A) : bool :=
  null_leb (key y) (key x).

(** ** [GET /api/emissions/recent] and [GET /api/alerts] *)

(** [SELECT ed.*, s.location, s.sensor_type]. *)
Record recent_row :=
  { recent_reading : Emission_Data.row; recent_location : option string;
    recent_sensor_type : string }.

Definition get_api_emissions_recent (user : jwt_user) (d : db)
    : Z * list recent_row :=
  (200%Z,
   map (fun r => {| recent_reading := fst r;
                    recent_location := Sensor.location (snd r);
                    recent_sensor_type := Sensor.sensor_type (snd r) |})
       (LIMIT 50
          (ORDER_BY (desc (fun r => Some (Emission_Data.timestamp (fst r))))
             (emissions_of_user (user_id user) d)))).

Definition get_api_alerts (user : jwt_user) (d : db) : Z * list Alert.row :=
  (200%Z,
   LIMIT 50
     (ORDER_BY (desc Alert.created_at)
        (filter (fun a => (Alert.user_id a =? user_id user)%Z) (db_Alert d)))).

(** ** Registration and login *)

Module Register.
Record body :=
  { name : option string; email : option string; password : option string;
    role : option string }.
End Register.

Module Login.
Record body := { email : option string; password : option string }.
End Login.

Record login_user :=
  { login_user_id : Z; login_name : string; login_email : string;
    login_role : string }.

Inductive auth_json :=
| auth_error (error : string)
| auth_registered (message : string) (user_id : Z)
| auth_logged_in (message token : string) (user : login_user).

Record auth_response := { auth_status : Z; auth_payload : auth_json }.

(** [!x] on a string that may be absent. *)
Definition falsy (x : option string) : bool :=
  match x with
  | None | Some EmptyString => true
  | Some _ => false
  end.

(** [x || y]. *)
Definition or_else (x : option string) (y : string) : string :=
  match x with
  | None | Some EmptyString => y
  | Some s => s
  end.

(** What a registration draws from outside: the salt of [bcrypt.hash], the
    key [AUTO_INCREMENT] hands out, and the statement's environment. *)
Record register_env := { reg_salt : string; reg_insertId : Z; reg_sql : env }.

(** [SELECT ... FROM User WHERE email = ?]; a [NULL] parameter matches no
    row. *)
Definition select_User_by_email (email : option string) (d : db)
    : list User.row :=
  match email with
  | Some em => filter (fun u => String.eqb (User.email u) em) (db_User d)
  | None => []
  end.

Section Accounts.

(** [bcrypt.hash(password, 10)] with the salt it draws, and
    [bcrypt.compare(password, hash)]. *)
Variable bcrypt_hash : string -> string -> string.
Variable bcrypt_compare : string -> string -> bool.

(** [jwt.sign(payload, process.env.JWT_SECRET, { expiresIn: '24h' })] at a
    given [Date.now()]. *)
Variable jwt_sign : Z -> jwt_user -> string.

Definition post_api_auth_register (re : register_env) (b : Register.body)
    (d : db) : auth_response * db :=
  if falsy (Register.name b) || falsy (Register.email b)
     || falsy (Register.password b)
  then ({| auth_status := 400; auth_payload := auth_error "All fields required" |}, d)
  else
    match Register.name b, Register.email b, Register.password b with
    | Some name, Some email, Some password =>
        let existing := select_User_by_email (Some email) d in
        if (0 <? length existing)%nat
        then ({| auth_status := 409;
                 auth_payload := auth_error "Email already registered" |}, d)
        else
          let password_hash := bcrypt_hash (reg_salt re) password in
          match insert_User (reg_sql re) (reg_insertId re) name email
                  (or_else (Register.role b) "operator") password_hash d with
          | Some (insertId, d') =>
              ({| auth_status := 201;
                  auth_payload := auth_registered "Registration successful" insertId |},
               d')
          | None =>
              ({| auth_status := 500;
                  auth_payload := auth_error "Registration failed" |}, d)
          end
    | _, _, _ =>
        ({| auth_status := 400; auth_payload := auth_error "All fields required" |}, d)
    end.

(** [bcrypt.compare] rejects when the password is absent, which the route
    catches. *)
Definition post_api_auth_login (now : Z) (b : Login.body) (d : db)
    : auth_response * db :=
  match select_User_by_email (Login.email b) d with
  | [] =>
      ({| auth_status := 401; auth_payload := auth_error "Invalid credentials" |}, d)
  | user :: _ =>
      match Login.password b with
      | None =>
          ({| auth_status := 500; auth_payload := auth_error "Login failed" |}, d)
      | Some password =>
          if bcrypt_compare password (User.password_hash user) then
            ({| auth_status := 200;
                auth_payload :=
                  auth_logged_in "Login successful"
                    (jwt_sign now {| user_id := User.user_id user;
                                     email := User.email user;
                                     role := User.role user |})
                    {| login_user_id := User.user_id user;
                       login_name := User.name user;
                       login_email := User.email user;
                       login_role := User.role user |} |}, d)
          else
            ({| auth_status := 401;
                auth_payload := auth_error "Invalid credentials" |}, d)
      end
  end.

End Accounts.

(** ** Reports *)

Module Report.
Record row := mk
  { report_id : string; report_type : string; generated_date : Z;
    period_start : Z; period_end : Z; total_emission : option Q;
    total_credits : option Q; report_file_path : option string; user_id : Z }.
End Report.

Module User_Report_Access.
Record row := mk
  { access_id : string; user_id : Z; report_id : string;
    view_timestamp : option Z; access_type : option string }.
End User_Report_Access.

(** The store with its two report tables. *)
Record report_db := mkreports
  { base : db;
    db_Report : list Report.row;
    db_User_Report_Access : list User_Report_Access.row }.

Definition has_Report (rid : string) (r : report_db) : bool :=
  existsb (fun x => String.eqb (Report.report_id x) rid) (db_Report r).

Definition has_User_Report_Access (aid : string) (r : report_db) : bool :=
  existsb (fun x => String.eqb (User_Report_Access.access_id x) aid)
          (db_User_Report_Access r).

(** [DATE(t)] of a [DATETIME], and [x BETWEEN lo AND hi]. *)
Definition DATE (t : Z) : Z := (t / 1000000)%Z.

Definition BETWEEN (x lo hi : Z) : bool := ((lo <=? x) && (x <=? hi))%Z.

(** [SELECT SUM(ed.co2_value) FROM Emission_Data ed JOIN Sensor s ON ...
    WHERE s.user_id = p_user_id AND DATE(ed.timestamp) BETWEEN p_start_date
    AND p_end_date]. *)
Definition select_total_emission (p_user_id p_start_date p_end_date : Z)
    (d : db) : option Q :=
  SUM (map (fun r => Emission_Data.co2_value (fst r))
           (filter (fun r => BETWEEN (DATE (Emission_Data.timestamp (fst r)))
                                     p_start_date p_end_date)
                   (emissions_of_user p_user_id d))).

(** [SELECT SUM(cc.credit_amount) FROM Carbon_Credit cc JOIN ... WHERE
    s.user_id = p_user_id AND cc.calculated_date BETWEEN p_start_date AND
    p_end_date]. *)
Definition select_total_credits (p_user_id p_start_date p_end_date : Z)
    (d : db) : option Q :=
  SUM (map (fun r => Carbon_Credit.credit_amount (fst (fst (fst r))))
           (filter (fun r => BETWEEN (Carbon_Credit.calculated_date
                                        (fst (fst (fst r))))
                                     p_start_date p_end_date)
                   (credits_of_user p_user_id d))).

(** [INSERT INTO Report (...)]: primary key [report_id], foreign key to
    [User]; the file path is left [NULL]. *)
Definition insert_Report (row : Report.row) (r : report_db) : option report_db :=
  if has_Report (Report.report_id row) r then None
  else if negb (has_User (Report.user_id row) (base r)) then None
  else Some (mkreports (base r) (db_Report r ++ [row]) (db_User_Report_Access r)).

(** [INSERT INTO User_Report_Access (access_id, user_id, report_id,
    access_type)]: primary key [access_id], foreign keys to [User] and
    [Report]; [view_timestamp] takes its default. *)
Definition insert_User_Report_Access (e : env) (access_id : string) (user_id : Z)
    (report_id access_type : string) (r : report_db) : option report_db :=
  if has_User_Report_Access access_id r then None
  else if negb (has_User user_id (base r)) then None
  else if negb (has_Report report_id r) then None
  else Some (mkreports (base r) (db_Report r)
               (db_User_Report_Access r ++
                [User_Report_Access.mk access_id user_id report_id
                   (Some (NOW e)) (Some access_type)])).

(** [CALL generate_report(...)] from a client: the store it leaves and the
    [OUT] parameter, or [None] when a statement of the procedure raised an
    error. Outside a trigger each statement of a procedure stands on its
    own, so that a row inserted before the error stays. *)
Definition generate_report (e : env) (p_user_id : Z) (p_report_type : string)
    (p_start_date p_end_date : Z) (r : report_db) : report_db * option string :=
  let p_report_id :=
    CONCAT ["RPT_"%string; DATE_FORMAT_YmdHis (NOW e); "_"%string;
            decimal p_user_id] in
  let v_total_emission :=
    select_total_emission p_user_id p_start_date p_end_date (base r) in
  let v_total_credits :=
    select_total_credits p_user_id p_start_date p_end_date (base r) in
  match insert_Report
          (Report.mk p_report_id p_report_type (CURDATE e) p_start_date
             p_end_date (Some (COALESCE v_total_emission 0))
             (Some (COALESCE v_total_credits 0)) None p_user_id) r with
  | None => (r, None)
  | Some r1 =>
      match insert_User_Report_Access e
              (CONCAT ["ACCESS_"%string; p_report_id]) p_user_id p_report_id
              "owner" r1 with
      | None => (r1, None)
      | Some r2 => (r2, Some p_report_id)
      end
  end.

(** ** Views *)



Section Realtime.

(** [DATE_SUB(t, INTERVAL 24 HOUR)]. *)
Variable DATE_SUB_24_HOUR : Z -> Z.


End Realtime.

(** [DATE_FORMAT(d, '%Y-%m')] of a [DATE]. *)
Definition pad2 (n : Z) : string :=
  if (n <? 10)%Z then CONCAT ["0"%string; decimal n] else decimal n.

Definition DATE_FORMAT_Y_m (date : Z) : string :=
  CONCAT [decimal (date / 10000); "-"%string; pad2 ((date / 100) mod 100)].

(** [FROM Carbon_Credit cc JOIN Credit_Emission_Map cem ON ... JOIN
    Emission_Data ed ON ... JOIN Sensor s ON ... JOIN User u ON s.user_id =
    u.user_id]. *)
Definition credit_join (d : db)
    : list (Carbon_Credit.row * Credit_Emission_Map.row * Emission_Data.row
            * Sensor.row * User.row) :=
  flat_map
    (fun cc =>
       flat_map
         (fun cem =>
            flat_map
              (fun ed =>
                 flat_map
                   (fun s =>
                      map (fun u => (cc, cem, ed, s, u))
                        (filter (fun u => (Sensor.user_id s =? User.user_id u)%Z)
                                (db_User d)))
                   (filter (fun s => String.eqb (Emission_Data.sensor_id ed)
                                                (Sensor.sensor_id s))
                           (db_Sensor d)))
              (filter (fun ed => String.eqb (Credit_Emission_Map.emission_id cem)
                                            (Emission_Data.emission_id ed))
                      (db_Emission_Data d)))
         (filter (fun cem => String.eqb (Carbon_Credit.credit_id cc)
                                        (Credit_Emission_Map.credit_id cem))
                 (db_Credit_Emission_Map d)))
    (db_Carbon_Credit d).

Definition joined_credit
    (r : Carbon_Credit.row * Credit_Emission_Map.row * Emission_Data.row
         * Sensor.row * User.row) : Carbon_Credit.row :=
  fst (fst (fst (fst r))).

(** [GROUP BY u.user_id, u.name, DATE_FORMAT(cc.calculated_date, '%Y-%m')]. *)
Definition summary_key
    (r : Carbon_Credit.row * Credit_Emission_Map.row * Emission_Data.row
         * Sensor.row * User.row) : Z * string * string :=
  (User.user_id (snd r), User.name (snd r),
   DATE_FORMAT_Y_m (Carbon_Credit.calculated_date (joined_credit r))).

Definition key_eqb (a b : Z * string * string) : bool :=
  (fst (fst a) =? fst (fst b))%Z && String.eqb (snd (fst a)) (snd (fst b))
  && String.eqb (snd a) (snd b).

Fixpoint distinct (l : list (Z * string * string)) : list (Z * string * string) :=
  match l with
  | [] => []
  | k :: l' => k :: filter (fun k' => negb (key_eqb k' k)) (distinct l')
  end.

Definition is_earned (c : Carbon_Credit.row) : bool :=
  match Carbon_Credit.status c with earned => true | _ => false end.

Definition is_deficit (c : Carbon_Credit.row) : bool :=
  match Carbon_Credit.status c with deficit => true | _ => false end.

Record credit_summary :=
  { cs_user_id : Z; cs_company_name : string; cs_month : string;
    cs_credits_earned : option Q; cs_credits_deficit : option Q;
    cs_net_credits : option Q; cs_total_calculations : nat }.

Definition summarise (k : Z * string * string)
    (group : list Carbon_Credit.row) : credit_summary :=
  {| cs_user_id := fst (fst k);
     cs_company_name := snd (fst k);
     cs_month := snd k;
     cs_credits_earned :=
       SUM (map (fun c => if is_earned c then Carbon_Credit.credit_amount c
                          else 0) group);
     cs_credits_deficit :=
       SUM (map (fun c => if is_deficit c
                          then Qabs (Carbon_Credit.credit_amount c) else 0)
                group);
     cs_net_credits := SUM (map Carbon_Credit.credit_amount group);
     cs_total_calculations := length group |}.

Definition v_credit_summary (d : db) : list credit_summary :=
  map (fun k =>
         summarise k
           (map joined_credit
              (filter (fun r => key_eqb (summary_key r) k) (credit_join d))))
      (distinct (map summary_key (credit_join d))).

(** [ENUM] values order by their position in the declaration; [NULL] is
    below them all. *)
Definition severity_index (s : option alert_severity) : option Z :=
  match s with
  | None => None
  | Some low => Some 1%Z
  | Some medium => Some 2%Z
  | Some high => Some 3%Z
  | Some critical => Some 4%Z
  end.

(** [ORDER BY a.created_at DESC, a.severity DESC]. *)
Definition active_alert_before (x y : Alert.row * User.row) : bool :=
  if null_eqb (Alert.created_at (fst x)) (Alert.created_at (fst y))
  then null_leb (severity_index (Alert.severity (fst y)))
                (severity_index (Alert.severity (fst x)))
  else null_leb (Alert.created_at (fst y)) (Alert.created_at (fst x)).

(** [FROM Alert a JOIN User u ON a.user_id = u.user_id WHERE a.is_read =
    FALSE]. *)
Definition v_active_alerts (d : db) : list (Alert.row * User.row) :=
  ORDER_BY active_alert_before
    (filter (fun r => is_unread (fst r))
       (flat_map
          (fun a =>
             map (pair a)
               (filter (fun u => (Alert.user_id a =? User.user_id u)%Z)
                       (db_User d)))
          (db_Alert d))).

(** ** The serial bridge *)

Inductive js (A : Type) := js_undefined | js_null | js_value (a : A).
Arguments js_undefined {A}.
Arguments js_null {A}.
Arguments js_value {A} _.

Record bridge_data :=
  { data_sensor_id : js string; data_co2_value : js Q;
    data_temperature : js Q; data_humidity : js Q }.

(** A bind parameter of [connection.execute]: [undefined] is refused before
    anything is sent, [null] is sent as [NULL]. *)
Definition bind_parameter {A} (v : js A) : option (option A) :=
  match v with
  | js_undefined => None
  | js_null => Some None
  | js_value a => Some (Some a)
  end.

(** A value of [pool.query]: [undefined] and [null] are both sent as
    [NULL]. *)
Definition query_value {A} (v : js A) : option A :=
  match v with
  | js_value a => Some a
  | _ => None
  end.

Definition saveToDatabase (je : js_env) (e : env) (data : bridge_data) (d : db)
    : bool * db :=
  let emission_id :=
    CONCAT ["EM_"%string; decimal (Date_now je); "_"%string;
            decimal (Qfloor (Math_random je * 1000))] in
  match bind_parameter (data_co2_value data),
        bind_parameter (data_temperature data),
        bind_parameter (data_humidity data),
        bind_parameter (data_sensor_id data) with
  | Some co2, Some tp, Some hu, Some sid =>
      match insert_Emission_Data e emission_id (NOW e) co2 None tp hu sid d with
      | Some (_, d') => (true, d')
      | None => (false, d)
      end
  | _, _, _, _ => (false, d)
  end.

(** ** Reading the dashboard's answer *)

Definition stat_current_emission (r : response) : Q :=
  match payload r with
  | json_stats x _ _ _ => x
  | _ => 0
  end.

Definition stat_total_credits (r : response) : Q :=
  match payload r with
  | json_stats _ x _ _ => x
  | _ => 0
  end.

Definition stat_unread_alerts (r : response) : nat :=
  match payload r with
  | json_stats _ _ _ x => x
  | _ => 0%nat
  end.

Definition dashboard (uid : Z) (d : db) : response :=
  fst (get_api_dashboard_stats {| user_id := uid; email := ""; role := "" |} tt d).

(** ** The answers of the account routes *)

Definition all_fields_required : auth_response :=
  {| auth_status := 400; auth_payload := auth_error "All fields required" |}.

Definition email_already_registered : auth_response :=
  {| auth_status := 409; auth_payload := auth_error "Email already registered" |}.

Definition registration_failed : auth_response :=
  {| auth_status := 500; auth_payload := auth_error "Registration failed" |}.

Definition invalid_credentials : auth_response :=
  {| auth_status := 401; auth_payload := auth_error "Invalid credentials" |}.

Definition login_failed : auth_response :=
  {| auth_status := 500; auth_payload := auth_error "Login failed" |}.

Definition email_taken (em : string) (d : db) : bool :=
  existsb (fun u => String.eqb (User.email u) em) (db_User d).

Definition registered_row (re : register_env) (name email role hash : string)
    : User.row :=
  User.mk (reg_insertId re) name email role hash (Some (NOW (reg_sql re)))
    (Some (NOW (reg_sql re))) (Some true).

(** ** Sample inputs of the account routes *)

Definition sample_hash (salt password : string) : string :=
  CONCAT [salt; "$"%string; password].

Definition sample_compare (password hash : string) : bool :=
  String.eqb hash (CONCAT ["s4lt"%string; "$"%string; password]).

Definition sample_sign (_ : Z) (u : jwt_user) : string :=
  CONCAT ["token-"%string; decimal (user_id u)].

Definition plant_user : jwt_user :=
  {| user_id := 4; email := "new@plant.com"; role := "operator" |}.

Definition plant_verify (t : string) : option jwt_user :=
  if String.eqb t "token-4" then Some plant_user else None.

Definition sample_register_env : register_env :=
  {| reg_salt := "s4lt"; reg_insertId := 4; reg_sql := sample_env |}.

Definition plant_registration : Register.body :=
  {| Register.name := Some "New Plant"%string;
     Register.email := Some "new@plant.com"%string;
     Register.password := Some "secret"%string;
     Register.role := None |}.

Definition plant_login : Login.body :=
  {| Login.email := Some "new@plant.com"%string;
     Login.password := Some "secret"%string |}.

Definition sample_registered : db :=
  snd (post_api_auth_register sample_hash sample_register_env
         plant_registration sample_db).

(** ** What an alert reference stands for *)


(** ** What [generate_report] writes *)

Definition report_id_at (e : env) (uid : Z) : string :=
  CONCAT ["RPT_"%string; DATE_FORMAT_YmdHis (NOW e); "_"%string; decimal uid].

Definition access_id_at (e : env) (uid : Z) : string :=
  CONCAT ["ACCESS_"%string; report_id_at e uid].

Definition report_row_at (e : env) (uid : Z) (type : string) (a c : Z) (d : db)
    : Report.row :=
  Report.mk (report_id_at e uid) type (CURDATE e) a c
    (Some (COALESCE (select_total_emission uid a c d) 0))
    (Some (COALESCE (select_total_credits uid a c d) 0)) None uid.

Definition access_row_at (e : env) (uid : Z) : User_Report_Access.row :=
  User_Report_Access.mk (access_id_at e uid) uid (report_id_at e uid)
    (Some (NOW e)) (Some "owner"%string).

(** The stores reached by calls of [generate_report], whatever they
    return, and by the writes to the other tables, from one without
    reports. *)
Inductive report_step : report_db -> report_db -> Prop :=
| report_step_generate e uid type a c r :
    report_step r (fst (generate_report e uid type a c r))
| report_step_base r d' :
    step (base r) d' ->
    report_step r (mkreports d' (db_Report r) (db_User_Report_Access r)).

Inductive report_reachable : report_db -> Prop :=
| report_reachable_initial r :
    db_Report r = [] -> db_User_Report_Access r = [] -> report_reachable r
| report_reachable_step r r' :
    report_reachable r -> report_step r r' -> report_reachable r'.

Definition accesses_of (rep : Report.row) (r : report_db)
    : list User_Report_Access.row :=
  filter (fun a => String.eqb (User_Report_Access.report_id a)
                              (Report.report_id rep))
         (db_User_Report_Access r).

Definition report_owned (rep : Report.row) (a : User_Report_Access.row) : Prop :=
  User_Report_Access.report_id a = Report.report_id rep /\
  User_Report_Access.access_id a
  = CONCAT ["ACCESS_"%string; Report.report_id rep] /\
  User_Report_Access.user_id a = Report.user_id rep /\
  User_Report_Access.access_type a = Some "owner"%string.

Definition sample_reports : report_db :=
  {| base := sample_both; db_Report := []; db_User_Report_Access := [] |}.

Definition report_env : env := {| NOW := 20240701000000; RAND := 0 |}.

(** ** Sample input of the serial bridge *)

Definition line_850 : bridge_data :=
  {| data_sensor_id := js_value "SENSOR_001"%string;
     data_co2_value := js_value 850;
     data_temperature := js_value (285 # 10);
     data_humidity := js_value 65 |}.

Definition line_without_humidity : bridge_data :=
  {| data_sensor_id := js_value "SENSOR_001"%string;
     data_co2_value := js_value 850;
     data_temperature := js_value (285 # 10);
     data_humidity := js_undefined |}.

Definition body_of_line (data : bridge_data) : emission_body :=
  {| sensor_id := query_value (data_sensor_id data);
     co2_value := query_value (data_co2_value data);
     pm25_value := None;
     temperature := query_value (data_temperature data);
     humidity := query_value (data_humidity data) |}.

Definition is_undefined {A} (v : js A) : bool :=
  match v with
  | js_undefined => true
  | _ => false
  end.

(** * Properties *)

(** ** Comparisons and small facts on lists *)

Lemma Qgt_bool_true x y : Qgt_bool x y = true <-> y < x.
Proof.
  unfold Qgt_bool. rewrite negb_true_iff.
  split; intro H.
  - apply Qnot_le_lt. intro L. apply Qle_bool_iff in L. congruence.
  - destruct (Qle_bool x y) eqn:E; auto. apply Qle_bool_iff in E. lra.
Qed.

Lemma Qgt_bool_false x y : Qgt_bool x y = false <-> x <= y.
Proof.
  unfold Qgt_bool. rewrite negb_false_iff. apply Qle_bool_iff.
Qed.

Lemma Qlt_bool_true x y : Qlt_bool x y = true <-> x < y.
Proof. apply Qgt_bool_true. Qed.

Lemma Qlt_bool_false x y : Qlt_bool x y = false <-> y <= x.
Proof. apply Qgt_bool_false. Qed.

Lemma is_true3_Some b : is_true3 (Some b) = b.
Proof. now destruct b. Qed.

Lemma Qdiv_1000_sign x :
  (0 < x -> 0 < x / 1000) /\ (x < 0 -> x / 1000 < 0) /\
  (0 <= x -> 0 <= x / 1000).
Proof.
  unfold Qdiv. setoid_replace (/ 1000) with (1 # 1000) by reflexivity.
  repeat split; intro; lra.
Qed.

Lemma existsb_snoc {A} (p : A -> bool) l x :
  existsb p (l ++ [x]) = existsb p l || p x.
Proof. rewrite existsb_app. simpl. now rewrite orb_false_r. Qed.

Lemma existsb_eqb_false {A} (f : A -> string) x l :
  existsb (fun a => String.eqb (f a) x) l = false -> ~ In x (map f l).
Proof.
  induction l as [|a l IH]; simpl; [tauto|].
  intro H. apply orb_false_iff in H as [H1 H2].
  apply String.eqb_neq in H1. intros [E | I]; [congruence | now apply IH].
Qed.

Lemma flat_map_nil {A B} (g : A -> list B) l :
  (forall a, g a = []) -> flat_map g l = [].
Proof.
  intro H. induction l as [|a l IH]; simpl; [reflexivity|].
  now rewrite H, IH.
Qed.

(** ** The credit calculation *)

Lemma status_of_sign amount :
  (status_of amount = earned <-> 0 < amount) /\
  (status_of amount = deficit <-> amount < 0) /\
  (status_of amount = neutral <-> amount == 0).
Proof.
  unfold status_of.
  destruct (Qgt_bool amount 0) eqn:G.
  - apply Qgt_bool_true in G.
    repeat split; intros; try congruence; try lra.
  - apply Qgt_bool_false in G.
    destruct (Qlt_bool amount 0) eqn:L.
    + apply Qlt_bool_true in L. repeat split; intros; try congruence; try lra.
    + apply Qlt_bool_false in L. repeat split; intros; try congruence; try lra.
Qed.

Lemma select_co2_value_has id d v :
  select_co2_value id d = [v] -> has_Emission_Data id d = true.
Proof.
  unfold select_co2_value, has_Emission_Data.
  induction (db_Emission_Data d) as [|r l IH]; simpl; [discriminate|].
  destruct (String.eqb (Emission_Data.emission_id r) id); simpl; auto.
Qed.

Lemma calculate_carbon_credits_run e id L d v :
  select_co2_value id d = [v] ->
  has_Carbon_Credit (credit_id_at e) d = false ->
  has_Credit_Emission_Map (map_id_at e) d = false ->
  calculate_carbon_credits e id L d =
    Some ((Some ((L - v) / 1000), status_of ((L - v) / 1000)),
          mkdb (db_User d) (db_Sensor d) (db_Emission_Data d)
               (db_Carbon_Credit d ++ [credit_row_at e v L])
               (db_Credit_Emission_Map d ++ [map_row_at e id])
               (db_Alert d)).
Proof.
  intros Hsel Hc Hm.
  pose proof (select_co2_value_has _ _ _ Hsel) as He.
  unfold calculate_carbon_credits. rewrite Hsel.
  unfold bind, select_into, ret. cbn [sql_sub sql_div].
  change (Qeq_bool 1000 0) with false. cbv iota.
  cbn [sql_gt sql_lt]. rewrite !is_true3_Some.
  fold (status_of ((L - v) / 1000)).
  fold (credit_id_at e). fold (map_id_at e).
  unfold insert_Carbon_Credit. rewrite Hc.
  unfold insert_Credit_Emission_Map.
  unfold has_Credit_Emission_Map, has_Carbon_Credit, has_Emission_Data in *.
  cbn [db_Credit_Emission_Map db_Carbon_Credit db_Emission_Data with_Carbon_Credit
       with_Credit_Emission_Map db_User db_Sensor db_Alert].
  rewrite Hm, existsb_snoc. cbn [Carbon_Credit.credit_id].
  rewrite String.eqb_refl, orb_true_r, He. cbn [negb].
  reflexivity.
Qed.

Lemma calculate_carbon_credits_eq e id L d v :
  select_co2_value id d = [v] ->
  calculate_carbon_credits e id L d =
    if has_Carbon_Credit (credit_id_at e) d then None
    else if has_Credit_Emission_Map (map_id_at e) d then None
    else Some ((Some ((L - v) / 1000), status_of ((L - v) / 1000)),
          mkdb (db_User d) (db_Sensor d) (db_Emission_Data d)
               (db_Carbon_Credit d ++ [credit_row_at e v L])
               (db_Credit_Emission_Map d ++ [map_row_at e id])
               (db_Alert d)).
Proof.
  intros Hsel.
  destruct (has_Carbon_Credit (credit_id_at e) d) eqn:Hc.
  - unfold calculate_carbon_credits. rewrite Hsel.
    unfold bind, select_into, ret. cbn [sql_sub sql_div].
    change (Qeq_bool 1000 0) with false. cbv iota.
    fold (credit_id_at e). unfold insert_Carbon_Credit. now rewrite Hc.
  - destruct (has_Credit_Emission_Map (map_id_at e) d) eqn:Hm.
    + unfold calculate_carbon_credits. rewrite Hsel.
      unfold bind, select_into, ret. cbn [sql_sub sql_div].
      change (Qeq_bool 1000 0) with false. cbv iota.
      fold (credit_id_at e). fold (map_id_at e).
      unfold insert_Carbon_Credit. rewrite Hc.
      unfold insert_Credit_Emission_Map.
      unfold has_Credit_Emission_Map in *.
      cbn [db_Credit_Emission_Map with_Carbon_Credit]. now rewrite Hm.
    + now apply calculate_carbon_credits_run.
Qed.

(** C1. Called on a reading whose emission value is [v], with allowed limit
    [L] and identifiers that are not taken, [calculate_carbon_credits]
    returns the amount [(L - v) / 1000] and a status that is [earned]
    exactly when the amount is positive, [deficit] exactly when it is
    negative and [neutral] exactly when it is zero (so [deficit] with a
    negative amount whenever [v] exceeds [L]); the one row it adds to
    [Carbon_Credit] holds that amount and status, [v] as emission value and
    [L] as allowed limit. *)
Theorem calculate_carbon_credits_correct (e : env) (d : db)
    (p_emission_id : string) (v L : Q) :
  select_co2_value p_emission_id d = [v] ->
  has_Carbon_Credit (credit_id_at e) d = false ->
  has_Credit_Emission_Map (map_id_at e) d = false ->
  exists amount st d',
    calculate_carbon_credits e p_emission_id L d = Some ((Some amount, st), d') /\
    amount = (L - v) / 1000 /\
    (st = earned <-> 0 < amount) /\
    (st = deficit <-> amount < 0) /\
    (st = neutral <-> amount == 0) /\
    (L < v -> st = deficit /\ amount < 0) /\
    exists c,
      db_Carbon_Credit d' = db_Carbon_Credit d ++ [c] /\
      Carbon_Credit.emission_value c = v /\
      Carbon_Credit.allowed_limit c = L /\
      Carbon_Credit.credit_amount c = amount /\
      Carbon_Credit.status c = st.
Proof.
  intros Hsel Hc Hm.
  eexists _, _, _. split.
  - apply calculate_carbon_credits_run; eassumption.
  - destruct (status_of_sign ((L - v) / 1000)) as (H1 & H2 & H3).
    repeat (split; [assumption || reflexivity|]).
    split.
    + intro Hlt. assert (Hneg : (L - v) / 1000 < 0).
      { apply (Qdiv_1000_sign (L - v)). lra. }
      split; [now apply H2 | assumption].
    + eexists. cbn [db_Carbon_Credit]. split; [reflexivity|].
      repeat split.
Qed.

Lemma calculate_carbon_credits_correct_witness :
  exists d',
    calculate_carbon_credits sample_env "EM_2024060101" 1000
      (stored sample_850 850)
    = Some ((Some ((1000 - 850) / 1000), earned), d').
Proof.
  destruct (calculate_carbon_credits_correct sample_env (stored sample_850 850)
              "EM_2024060101" 850 1000)
    as (amount & st & d' & E & A & S & _); [reflexivity .. |].
  exists d'. rewrite E, A.
  assert (St : st = earned) by (apply S; rewrite A; reflexivity).
  now rewrite St.
Defined.

(** ** The alert classification *)

Lemma check_emission_threshold_quiet e id t d v sid uid :
  select_emission_details id d = [(v, sid, uid)] ->
  v <= t ->
  check_emission_threshold e id t d = Some (tt, d).
Proof.
  intros Hsel Hle. unfold check_emission_threshold. rewrite Hsel.
  unfold bind, select_into, ret. cbn [option_map fst snd sql_gt].
  rewrite is_true3_Some.
  apply Qgt_bool_false in Hle. now rewrite Hle.
Qed.

Lemma check_emission_threshold_many e id t d x y l :
  select_emission_details id d = x :: y :: l ->
  check_emission_threshold e id t d = None.
Proof.
  intros Hsel. unfold check_emission_threshold. rewrite Hsel. reflexivity.
Qed.

Lemma check_emission_threshold_alert e id t d v sid uid :
  select_emission_details id d = [(v, sid, uid)] ->
  t < v ->
  check_emission_threshold e id t d =
    if has_Alert (alert_id_at e) d then None
    else if negb (has_User uid d) then None
    else Some (tt, mkdb (db_User d) (db_Sensor d)
                     (link_alert (alert_id_at e) id (db_Emission_Data d))
                     (db_Carbon_Credit d) (db_Credit_Emission_Map d)
                     (db_Alert d ++ [alert_row_at e v t uid])).
Proof.
  intros Hsel Hlt. unfold check_emission_threshold. rewrite Hsel.
  unfold bind, select_into, ret. cbn [option_map fst snd sql_gt sql_mul].
  rewrite !is_true3_Some.
  apply Qgt_bool_true in Hlt. rewrite Hlt.
  fold (alert_id_at e). fold (severity_of v t).
  unfold insert_Alert.
  destruct (has_Alert (alert_id_at e) d); [reflexivity|].
  destruct (has_User uid d); [|reflexivity].
  reflexivity.
Qed.

Lemma severity_of_bands v t :
  t < v ->
  (t * (12 # 10) < v -> severity_of v t = critical) /\
  (t * (11 # 10) < v /\ v <= t * (12 # 10) -> severity_of v t = high) /\
  (v <= t * (11 # 10) -> severity_of v t = medium).
Proof.
  intro Hlt. unfold severity_of. repeat split.
  - intro H. apply Qgt_bool_true in H. now rewrite H.
  - intros [H1 H2]. apply Qgt_bool_false in H2. apply Qgt_bool_true in H1.
    now rewrite H2, H1.
  - intro H. assert (H2 : v <= t * (12 # 10)) by lra.
    apply Qgt_bool_false in H, H2. now rewrite H2, H.
Qed.

(** C2. Called on a reading with emission value [v] and with threshold [t],
    [check_emission_threshold] leaves the store as it is when [v <= t];
    when [t < v] (and the alert identifier it generates is not taken) it
    adds exactly one row to [Alert], whose severity is [critical] if
    [v > 1.2 t], [high] if [1.1 t < v <= 1.2 t] and [medium] if
    [t < v <= 1.1 t]: every bound is strict, so a value equal to [t] raises
    no alert and one equal to [1.1 t] or [1.2 t] falls in the lower band. *)
Theorem check_emission_threshold_correct (e : env) (d : db)
    (p_emission_id sid : string) (uid : Z) (v t : Q) :
  select_emission_details p_emission_id d = [(v, sid, uid)] ->
  (v <= t -> check_emission_threshold e p_emission_id t d = Some (tt, d)) /\
  (t < v ->
   has_Alert (alert_id_at e) d = false ->
   has_User uid d = true ->
   exists a d',
     check_emission_threshold e p_emission_id t d = Some (tt, d') /\
     db_Alert d' = db_Alert d ++ [a] /\
     Alert.threshold_value a = t /\
     Alert.user_id a = uid /\
     (t * (12 # 10) < v -> Alert.severity a = Some critical) /\
     (t * (11 # 10) < v /\ v <= t * (12 # 10) -> Alert.severity a = Some high) /\
     (t < v /\ v <= t * (11 # 10) -> Alert.severity a = Some medium)).
Proof.
  intros Hsel. split.
  - intro Hle. eapply check_emission_threshold_quiet; eassumption.
  - intros Hlt Ha Hu. eexists _, _. split.
    + rewrite (check_emission_threshold_alert _ _ _ _ _ _ _ Hsel Hlt), Ha, Hu.
      reflexivity.
    + cbn [db_Alert]. split; [reflexivity|].
      destruct (severity_of_bands v t Hlt) as (S1 & S2 & S3).
      cbn [alert_row_at Alert.threshold_value Alert.user_id Alert.severity].
      repeat split.
      * intro H. now rewrite S1.
      * intro H. now rewrite S2.
      * intros [_ H]. now rewrite S3.
Qed.

Lemma check_emission_threshold_correct_witness :
  (check_emission_threshold (sub_env sample_1050) "EM_2024060201" 1050
     (stored sample_1050 1050) = Some (tt, stored sample_1050 1050)) /\
  (exists a d',
     check_emission_threshold (sub_env sample_1050) "EM_2024060201" 1000
       (stored sample_1050 1050) = Some (tt, d') /\
     db_Alert d' = [a] /\ Alert.severity a = Some medium) /\
  (exists a d',
     check_emission_threshold (sub_env sample_1050) "EM_2024060201" 1000
       (stored sample_1050 1100) = Some (tt, d') /\
     db_Alert d' = [a] /\ Alert.severity a = Some medium) /\
  (exists a d',
     check_emission_threshold (sub_env sample_1050) "EM_2024060201" 1000
       (stored sample_1050 1200) = Some (tt, d') /\
     db_Alert d' = [a] /\ Alert.severity a = Some high).
Proof.
  split; [|split; [|split]].
  - apply (check_emission_threshold_correct (sub_env sample_1050)
             (stored sample_1050 1050) "EM_2024060201" "SENSOR_001" 1 1050 1050);
      [reflexivity | vm_compute; discriminate].
  - destruct (check_emission_threshold_correct (sub_env sample_1050)
                (stored sample_1050 1050) "EM_2024060201" "SENSOR_001" 1 1050 1000
                eq_refl) as (_ & H).
    destruct H as (a & d' & E & A & _ & _ & _ & _ & M);
      [reflexivity .. |].
    exists a, d'. repeat split; try assumption.
    apply M. split; vm_compute; congruence.
  - destruct (check_emission_threshold_correct (sub_env sample_1050)
                (stored sample_1050 1100) "EM_2024060201" "SENSOR_001" 1 1100 1000
                eq_refl) as (_ & H).
    destruct H as (a & d' & E & A & _ & _ & _ & _ & M);
      [reflexivity .. |].
    exists a, d'. repeat split; try assumption.
    apply M. split; vm_compute; congruence.
  - destruct (check_emission_threshold_correct (sub_env sample_1050)
                (stored sample_1050 1200) "EM_2024060201" "SENSOR_001" 1 1200 1000
                eq_refl) as (_ & H).
    destruct H as (a & d' & E & A & _ & _ & _ & H2 & _);
      [reflexivity .. |].
    exists a, d'. repeat split; try assumption.
    apply H2. split; vm_compute; congruence.
Defined.

(** ** The insertion and its trigger *)

Lemma has_Sensor_sensors_of sid d :
  has_Sensor sid d = false <-> sensors_of sid d = [].
Proof.
  unfold has_Sensor, sensors_of.
  induction (db_Sensor d) as [|s l IH]; simpl; [tauto|].
  rewrite (String.eqb_sym sid).
  destruct (String.eqb (Sensor.sensor_id s) sid); simpl; [|exact IH].
  split; discriminate.
Qed.

Section Fresh.

Variables (id : string) (l : list Emission_Data.row) (NEW : Emission_Data.row).
Hypothesis Hid : Emission_Data.emission_id NEW = id.
Hypothesis Hfresh :
  existsb (fun r => String.eqb (Emission_Data.emission_id r) id) l = false.

Lemma filter_fresh :
  filter (fun r => String.eqb (Emission_Data.emission_id r) id) (l ++ [NEW])
  = [NEW].
Proof.
  revert Hfresh. induction l as [|r l' IH]; simpl.
  - intros _. now rewrite Hid, String.eqb_refl.
  - intro H. apply orb_false_iff in H as [H1 H2]. rewrite H1. auto.
Qed.

Lemma link_alert_fresh aid :
  link_alert aid id (l ++ [NEW]) = l ++ [set_alert_id aid NEW].
Proof.
  unfold link_alert. revert Hfresh. induction l as [|r l' IH]; simpl.
  - intros _. now rewrite Hid, String.eqb_refl.
  - intro H. apply orb_false_iff in H as [H1 H2]. rewrite H1.
    f_equal. auto.
Qed.

End Fresh.

Lemma insert_Emission_Data_eq e id ts co2 pm tp hu sid d :
  insert_Emission_Data e id ts (Some co2) pm tp hu (Some sid) d =
    if has_Emission_Data id d then None
    else
      match sensors_of sid d with
      | [s] =>
          if Qgt_bool co2 v_threshold then
            if has_Alert (alert_id_at e) d then None
            else if negb (has_User (Sensor.user_id s) d) then None
            else Some (tt, breach_outcome e (new_row id ts co2 pm tp hu sid)
                             (Sensor.user_id s) d)
          else
            if has_Carbon_Credit (credit_id_at e) d then None
            else if has_Credit_Emission_Map (map_id_at e) d then None
            else Some (tt, compliant_outcome e (new_row id ts co2 pm tp hu sid) d)
      | _ => None
      end.
Proof.
  unfold insert_Emission_Data.
  destruct (has_Emission_Data id d) eqn:Hid; [reflexivity|].
  destruct (has_Sensor sid d) eqn:Hs; cbn [negb].
  2:{ apply has_Sensor_sensors_of in Hs. now rewrite Hs. }
  fold (new_row id ts co2 pm tp hu sid).
  set (NEW := new_row id ts co2 pm tp hu sid).
  set (d1 := with_Emission_Data d (db_Emission_Data d ++ [NEW])).
  assert (Hsel : select_emission_details id d1 =
                 map (fun s => (co2, sid, Sensor.user_id s)) (sensors_of sid d)).
  { unfold select_emission_details, d1.
    cbn [db_Emission_Data db_Sensor with_Emission_Data].
    rewrite (filter_fresh id _ NEW eq_refl Hid). cbn [flat_map].
    now rewrite app_nil_r. }
  assert (Hco2 : select_co2_value id d1 = [co2]).
  { unfold select_co2_value, d1. cbn [db_Emission_Data with_Emission_Data].
    now rewrite (filter_fresh id _ NEW eq_refl Hid). }
  unfold after_emission_insert, bind.
  cbn [Emission_Data.emission_id Emission_Data.co2_value NEW new_row].
  fold NEW.
  destruct (sensors_of sid d) as [|s [|s' rest]] eqn:Hso.
  - apply has_Sensor_sensors_of in Hso. congruence.
  - cbn [map] in Hsel. unfold Qgt_bool.
    destruct (Qle_bool co2 v_threshold) eqn:Hle; cbn [negb].
    + apply Qle_bool_iff in Hle.
      rewrite (check_emission_threshold_quiet _ _ _ _ _ _ _ Hsel Hle).
      rewrite (calculate_carbon_credits_eq _ _ _ _ _ Hco2).
      unfold has_Carbon_Credit, has_Credit_Emission_Map, d1.
      cbn [db_Carbon_Credit db_Credit_Emission_Map with_Emission_Data].
      destruct (existsb _ (db_Carbon_Credit d)); [reflexivity|].
      destruct (existsb _ (db_Credit_Emission_Map d)); reflexivity.
    + assert (Hlt : v_threshold < co2).
      { apply Qnot_le_lt. intro L. apply Qle_bool_iff in L. congruence. }
      rewrite (check_emission_threshold_alert _ _ _ _ _ _ _ Hsel Hlt).
      unfold has_Alert, has_User, d1.
      cbn [db_Alert db_User with_Emission_Data].
      destruct (existsb _ (db_Alert d)); [reflexivity|].
      destruct (existsb _ (db_User d)); cbn [negb]; [|reflexivity].
      cbn [db_Emission_Data db_Sensor db_Carbon_Credit db_Credit_Emission_Map
           db_User db_Alert].
      rewrite (link_alert_fresh id _ NEW eq_refl Hid).
      unfold ret. reflexivity.
  - cbn [map] in Hsel.
    now rewrite (check_emission_threshold_many _ _ _ _ _ _ _ Hsel).
Qed.

Lemma insert_Emission_Data_inv e id ts oco2 pm tp hu osid d u d' :
  insert_Emission_Data e id ts oco2 pm tp hu osid d = Some (u, d') ->
  exists co2 sid s,
    oco2 = Some co2 /\ osid = Some sid /\
    has_Emission_Data id d = false /\ sensors_of sid d = [s] /\
    ((co2 <= v_threshold /\
      has_Carbon_Credit (credit_id_at e) d = false /\
      has_Credit_Emission_Map (map_id_at e) d = false /\
      d' = compliant_outcome e (new_row id ts co2 pm tp hu sid) d)
     \/
     (v_threshold < co2 /\
      has_Alert (alert_id_at e) d = false /\
      has_User (Sensor.user_id s) d = true /\
      d' = breach_outcome e (new_row id ts co2 pm tp hu sid)
             (Sensor.user_id s) d)).
Proof.
  destruct oco2 as [co2|]; [|discriminate].
  destruct osid as [sid|]; [|discriminate].
  rewrite insert_Emission_Data_eq.
  destruct (has_Emission_Data id d) eqn:Hid; [discriminate|].
  destruct (sensors_of sid d) as [|s [|s' rest]] eqn:Hs; try discriminate.
  intro H. exists co2, sid, s. repeat (split; [reflexivity || assumption|]).
  destruct (Qgt_bool co2 v_threshold) eqn:G.
  - right. apply Qgt_bool_true in G.
    destruct (has_Alert (alert_id_at e) d); [discriminate|].
    destruct (has_User (Sensor.user_id s) d); [|discriminate].
    injection H as _ <-. auto.
  - left. apply Qgt_bool_false in G.
    destruct (has_Carbon_Credit (credit_id_at e) d); [discriminate|].
    destruct (has_Credit_Emission_Map (map_id_at e) d); [discriminate|].
    injection H as _ <-. auto.
Qed.

Lemma created_by_compliant e NEW d :
  created_credits d (compliant_outcome e NEW d) = 1%nat /\
  created_alerts d (compliant_outcome e NEW d) = 0%nat.
Proof.
  unfold created_credits, created_alerts.
  cbn [compliant_outcome db_Carbon_Credit db_Alert].
  rewrite length_app. simpl. lia.
Qed.

Lemma created_by_breach e NEW uid d :
  created_credits d (breach_outcome e NEW uid d) = 0%nat /\
  created_alerts d (breach_outcome e NEW uid d) = 1%nat.
Proof.
  unfold created_credits, created_alerts.
  cbn [breach_outcome db_Carbon_Credit db_Alert].
  rewrite length_app. simpl. lia.
Qed.



(** ** Invariants of the reachable stores *)

Lemma credit_linked_mono d d' c m :
  (forall r, In r (db_Emission_Data d) -> In r (db_Emission_Data d')) ->
  credit_linked d c m -> credit_linked d' c m.
Proof.
  intros Hin (H1 & H2 & H3 & r & Hr & H4 & H5).
  repeat (split; [assumption|]). exists r. auto.
Qed.

Lemma alert_owner_mono d d' a :
  db_Sensor d' = db_Sensor d ->
  alert_owner_has_sensor d a -> alert_owner_has_sensor d' a.
Proof. unfold alert_owner_has_sensor. now intros ->. Qed.

Lemma credit_row_at_compliant e v :
  v <= v_threshold -> compliant_credit (credit_row_at e v v_threshold).
Proof.
  intro Hle. unfold compliant_credit, credit_row_at.
  cbn [Carbon_Credit.credit_amount Carbon_Credit.status
       Carbon_Credit.emission_value Carbon_Credit.allowed_limit].
  assert (Hn : 0 <= (v_threshold - v) / 1000)
    by (apply (Qdiv_1000_sign (v_threshold - v)); lra).
  repeat split; try assumption.
  destruct (status_of_sign ((v_threshold - v) / 1000)) as (_ & H2 & _).
  destruct (status_of ((v_threshold - v) / 1000)); auto.
  assert ((v_threshold - v) / 1000 < 0) by now apply H2. lra.
Qed.

Lemma store_inv_initial d : initial d -> store_inv d.
Proof.
  intros (_ & Hc & Hm & Ha). constructor; rewrite ?Hc, ?Hm, ?Ha; constructor.
Qed.

Lemma store_inv_step d d' : store_inv d -> step d d' -> store_inv d'.
Proof.
  intros [K Lk C O] S.
  destruct S as [e id ts co2 pm tp hu sid d d' H | e nid n em r h d id d' H].
  - apply insert_Emission_Data_inv in H.
    destruct H as (v & sn & s & -> & -> & Hid & Hs & [H | H]).
    + destruct H as (Hle & Hc & Hm & ->).
      constructor; cbn [compliant_outcome db_Carbon_Credit db_Credit_Emission_Map
                        db_Alert db_Sensor db_Emission_Data].
      * rewrite map_app.
        apply NoDup_app; [assumption | repeat constructor; simpl; tauto |].
        intros a Ha [<- | []]. apply existsb_eqb_false in Hc. contradiction.
      * apply Forall2_app.
        -- eapply Forall2_impl; [|exact Lk]. intros c m.
           apply credit_linked_mono. cbn [db_Emission_Data]. intros r0 Hr0.
           apply in_or_app. now left.
        -- constructor; [|constructor].
           repeat split. eexists. split; [|split; reflexivity].
           cbn [db_Emission_Data]. apply in_or_app. right. now left.
      * apply Forall_app. split; [assumption|].
        constructor; [|constructor]. now apply credit_row_at_compliant.
      * eapply Forall_impl; [|exact O]. intros a. now apply alert_owner_mono.
    + destruct H as (Hlt & Ha & Hu & ->).
      constructor; cbn [breach_outcome db_Carbon_Credit db_Credit_Emission_Map
                        db_Alert db_Sensor db_Emission_Data]; try assumption.
      * eapply Forall2_impl; [|exact Lk]. intros c m.
        apply credit_linked_mono. cbn [db_Emission_Data]. intros r0 Hr0.
        apply in_or_app. now left.
      * apply Forall_app. split.
        -- eapply Forall_impl; [|exact O]. intros a. now apply alert_owner_mono.
        -- constructor; [|constructor]. exists s. split; [|reflexivity].
           cbn [db_Sensor].
           assert (I : In s (sensors_of sn d)) by (rewrite Hs; now left).
           unfold sensors_of in I. now apply filter_In in I.
  - unfold insert_User in H.
    destruct (existsb _ (db_User d)); [discriminate|].
    destruct (has_User nid d); [discriminate|].
    injection H as _ <-.
    constructor; cbn [with_User db_Carbon_Credit db_Credit_Emission_Map db_Alert];
      assumption.
Qed.

Lemma reachable_store_inv d : reachable d -> store_inv d.
Proof.
  induction 1 as [d Hi | d d' _ IH S].
  - now apply store_inv_initial.
  - eapply store_inv_step; eassumption.
Qed.

Lemma sample_850_reachable : reachable (submit sample_850 sample_db).
Proof.
  apply reachable_step with (d := sample_db).
  - apply reachable_initial. repeat split.
  - apply (step_emission (sub_env sample_850) (sub_emission_id sample_850)
             (sub_timestamp sample_850) (sub_co2_value sample_850)
             (sub_pm25_value sample_850) (sub_temperature sample_850)
             (sub_humidity sample_850) (sub_sensor_id sample_850)).
    reflexivity.
Qed.

Section Lockstep.

Variable R : Carbon_Credit.row -> Credit_Emission_Map.row -> Prop.
Hypothesis R_key :
  forall c m, R c m ->
    Credit_Emission_Map.credit_id m = Carbon_Credit.credit_id c.

Lemma lockstep_no_link x cs ms :
  Forall2 R cs ms ->
  ~ In x (map Carbon_Credit.credit_id cs) ->
  filter (fun m => String.eqb x (Credit_Emission_Map.credit_id m)) ms = [].
Proof.
  induction 1 as [|c m cs ms Hcm _ IH]; simpl; [reflexivity|].
  intro Hn. rewrite (R_key _ _ Hcm).
  destruct (String.eqb_spec x (Carbon_Credit.credit_id c)) as [E | N].
  - exfalso. apply Hn. now left.
  - apply IH. tauto.
Qed.

Lemma lockstep_one_link c cs ms :
  Forall2 R cs ms ->
  NoDup (map Carbon_Credit.credit_id cs) ->
  In c cs ->
  exists m,
    filter (fun m => String.eqb (Carbon_Credit.credit_id c)
                                (Credit_Emission_Map.credit_id m)) ms = [m]
    /\ R c m.
Proof.
  induction 1 as [|c0 m0 cs ms Hcm F IH]; simpl; [tauto|].
  intros Hnd Hin. apply NoDup_cons_iff in Hnd as [Hn Hnd].
  rewrite (R_key _ _ Hcm).
  destruct Hin as [<- | Hin].
  - rewrite String.eqb_refl. exists m0.
    now rewrite (lockstep_no_link _ _ _ F Hn).
  - destruct (String.eqb_spec (Carbon_Credit.credit_id c)
                              (Carbon_Credit.credit_id c0)) as [E | N].
    + exfalso. apply Hn. rewrite <- E. now apply in_map.
    + now apply IH.
Qed.

End Lockstep.

(** C4. In every store reached by insertions (and registrations) from one
    where nothing was derived yet, hence after every derivation step, each
    row of [Carbon_Credit] has exactly one row of [Credit_Emission_Map]
    naming it; that row has weight factor 1.0 and inclusion flag true, and
    names a reading that exists and carries the emission value the credit
    was computed from. *)
Theorem every_credit_has_one_link (d : db) :
  reachable d ->
  forall c, In c (db_Carbon_Credit d) ->
  exists m,
    links_of c d = [m] /\
    Credit_Emission_Map.weight_factor m = Some 1 /\
    Credit_Emission_Map.included_flag m = Some true /\
    exists r,
      In r (db_Emission_Data d) /\
      Emission_Data.emission_id r = Credit_Emission_Map.emission_id m /\
      Emission_Data.co2_value r = Carbon_Credit.emission_value c.
Proof.
  intros Hr c Hc. destruct (reachable_store_inv _ Hr) as [K Lk _ _].
  destruct (lockstep_one_link (credit_linked d)
              (fun c m H => proj1 H) c _ _ Lk K Hc) as (m & Hf & Hl).
  exists m. split; [exact Hf|]. apply Hl.
Qed.

Lemma every_credit_has_one_link_witness :
  exists m,
    links_of (credit_row_at sample_env 850 1000) (submit sample_850 sample_db)
    = [m] /\
    Credit_Emission_Map.emission_id m = "EM_2024060101"%string.
Proof.
  destruct (every_credit_has_one_link (submit sample_850 sample_db)
              sample_850_reachable (credit_row_at sample_env 850 1000))
    as (m & L & _).
  - vm_compute. left. reflexivity.
  - exists m. split; [exact L|].
    assert (E : links_of (credit_row_at sample_env 850 1000)
                  (submit sample_850 sample_db)
                = [map_row_at sample_env "EM_2024060101"]) by reflexivity.
    rewrite E in L. injection L as <-. reflexivity.
Defined.

(** C10. Every credit found in a store reached through the insertion
    trigger has a credit amount that is not negative and a status that is
    [earned] or [neutral], never [deficit]: the trigger calls the credit
    calculation only when [co2_value <= 1000] and with 1000 as the limit. *)
Theorem trigger_credits_never_deficit (d : db) :
  reachable d ->
  forall c, In c (db_Carbon_Credit d) ->
    0 <= Carbon_Credit.credit_amount c /\
    (Carbon_Credit.status c = earned \/ Carbon_Credit.status c = neutral) /\
    Carbon_Credit.status c <> deficit.
Proof.
  intros Hr c Hc. destruct (reachable_store_inv _ Hr) as [_ _ C _].
  rewrite Forall_forall in C. destruct (C c Hc) as (H1 & H2 & _).
  repeat split; try assumption. destruct H2 as [-> | ->]; discriminate.
Qed.

Lemma trigger_credits_never_deficit_witness :
  0 <= Carbon_Credit.credit_amount (credit_row_at sample_env 850 1000) /\
  Carbon_Credit.status (credit_row_at sample_env 850 1000) <> deficit.
Proof.
  destruct (trigger_credits_never_deficit (submit sample_850 sample_db)
              sample_850_reachable (credit_row_at sample_env 850 1000))
    as (A & _ & S).
  - vm_compute. left. reflexivity.
  - split; assumption.
Defined.

(** ** One derivation per reading identifier *)

Lemma insert_duplicate_rejected e id ts co2 pm tp hu sid d :
  has_Emission_Data id d = true ->
  insert_Emission_Data e id ts co2 pm tp hu sid d = None.
Proof.
  intro H. destruct co2 as [co2|], sid as [sid|]; try reflexivity.
  rewrite insert_Emission_Data_eq. now rewrite H.
Qed.

Lemma insert_emissions_snoc e id ts co2 pm tp hu sid d u d' :
  insert_Emission_Data e id ts co2 pm tp hu sid d = Some (u, d') ->
  exists stored,
    db_Emission_Data d' = db_Emission_Data d ++ [stored] /\
    Emission_Data.emission_id stored = id.
Proof.
  intro H. apply insert_Emission_Data_inv in H.
  destruct H as (v & sn & s & _ & _ & _ & _
                 & [(_ & _ & _ & ->) | (_ & _ & _ & ->)]);
    eexists; split; reflexivity.
Qed.

Lemma insert_records_id e id ts co2 pm tp hu sid d u d' :
  insert_Emission_Data e id ts co2 pm tp hu sid d = Some (u, d') ->
  has_Emission_Data id d' = true.
Proof.
  intro H. apply insert_emissions_snoc in H as (stored & E & I).
  unfold has_Emission_Data. rewrite E, existsb_snoc, I, String.eqb_refl.
  apply orb_true_r.
Qed.

Lemma submit_keeps_id id s d :
  has_Emission_Data id d = true -> has_Emission_Data id (submit s d) = true.
Proof.
  intro H. unfold submit, submit_result.
  destruct (insert_Emission_Data _ _ _ _ _ _ _ _ d) as [[u d']|] eqn:E; [|exact H].
  apply insert_emissions_snoc in E as (stored & E & _).
  unfold has_Emission_Data in *. now rewrite E, existsb_snoc, H.
Qed.

Lemma run_keeps_id id subs d :
  has_Emission_Data id d = true -> has_Emission_Data id (run subs d) = true.
Proof.
  revert d. induction subs as [|s subs IH]; intros d H; [exact H|].
  apply IH. now apply submit_keeps_id.
Qed.

Lemma submit_creates_at_most_one s d :
  (created_credits d (submit s d) <= 1)%nat /\
  (created_alerts d (submit s d) <= 1)%nat.
Proof.
  unfold submit, submit_result.
  destruct (insert_Emission_Data _ _ _ _ _ _ _ _ d) as [[u d']|] eqn:E.
  - apply insert_Emission_Data_inv in E.
    destruct E as (v & sn & sr & _ & _ & _ & _
                   & [(_ & _ & _ & ->) | (_ & _ & _ & ->)]).
    + destruct (created_by_compliant (sub_env s)
                  (new_row (sub_emission_id s) (sub_timestamp s) v
                     (sub_pm25_value s) (sub_temperature s) (sub_humidity s) sn) d)
        as [-> ->]. lia.
    + destruct (created_by_breach (sub_env s)
                  (new_row (sub_emission_id s) (sub_timestamp s) v
                     (sub_pm25_value s) (sub_temperature s) (sub_humidity s) sn)
                  (Sensor.user_id sr) d)
        as [-> ->]. lia.
  - unfold created_credits, created_alerts. lia.
Qed.

Lemma submit_duplicate s d :
  has_Emission_Data (sub_emission_id s) d = true -> submit s d = d.
Proof.
  intro H. unfold submit, submit_result.
  now rewrite insert_duplicate_rejected.
Qed.

Lemma nothing_created_once_recorded id subs d :
  has_Emission_Data id d = true ->
  credits_created_for id subs d = 0%nat /\ alerts_created_for id subs d = 0%nat.
Proof.
  revert d. induction subs as [|s subs IH]; intros d H; [now split|].
  cbn [credits_created_for alerts_created_for].
  destruct (IH (submit s d) (submit_keeps_id _ _ _ H)) as [-> ->].
  destruct (String.eqb_spec (sub_emission_id s) id) as [E | N]; [|now split].
  rewrite submit_duplicate by now rewrite E.
  unfold created_credits, created_alerts. split; lia.
Qed.

Lemma created_for_at_most_one id subs d :
  (credits_created_for id subs d <= 1)%nat /\
  (alerts_created_for id subs d <= 1)%nat.
Proof.
  revert d. induction subs as [|s subs IH]; intro d; simpl; [lia|].
  destruct (String.eqb_spec (sub_emission_id s) id) as [E | N]; [|apply IH].
  destruct (submit_result s d) as [[u d']|] eqn:R.
  - assert (H : has_Emission_Data id (submit s d) = true).
    { unfold submit. rewrite R. subst id. eapply insert_records_id. exact R. }
    destruct (nothing_created_once_recorded id subs _ H) as [-> ->].
    pose proof (submit_creates_at_most_one s d). lia.
  - assert (S : submit s d = d) by (unfold submit; now rewrite R).
    rewrite S. unfold created_credits, created_alerts.
    specialize (IH d). lia.
Qed.

(** C5. However many times, and among whatever other submissions, readings
    with one identifier are submitted, the submissions carrying that
    identifier create at most one credit and at most one alert altogether:
    once a reading with the identifier has been accepted, every later
    insertion with it is refused by the primary key of [Emission_Data], so
    that the trigger does not fire for it again. *)
Theorem same_identifier_derives_once (id : string) (subs : list submission)
    (d : db) :
  (credits_created_for id subs d <= 1)%nat /\
  (alerts_created_for id subs d <= 1)%nat /\
  forall s1 s2 d1,
    sub_emission_id s1 = id -> sub_emission_id s2 = id ->
    submit_result s1 d = Some (tt, d1) ->
    submit_result s2 (run subs d1) = None /\
    credits_created_for id (subs ++ [s2]) d1 = 0%nat /\
    alerts_created_for id (subs ++ [s2]) d1 = 0%nat.
Proof.
  destruct (created_for_at_most_one id subs d) as [Hc Ha].
  repeat (split; [assumption|]).
  intros s1 s2 d1 E1 E2 R.
  assert (H : has_Emission_Data id d1 = true).
  { subst id. eapply insert_records_id. exact R. }
  split.
  - unfold submit_result. apply insert_duplicate_rejected.
    rewrite E2. now apply run_keeps_id.
  - now apply nothing_created_once_recorded.
Qed.

Lemma same_identifier_derives_once_witness :
  submit_result sample_850 (run [sample_1050] (submit sample_850 sample_db))
  = None /\
  credits_created_for "EM_2024060101" [sample_1050; sample_850]
    (submit sample_850 sample_db) = 0%nat.
Proof.
  destruct (same_identifier_derives_once "EM_2024060101" [sample_1050] sample_db)
    as (_ & _ & H).
  destruct (H sample_850 sample_850 (submit sample_850 sample_db))
    as (R & C & _); [reflexivity .. |].
  split; [exact R | exact C].
Defined.

(** ** The alert reference of a reading *)





(** ** The authentication middleware *)

Lemma split_no_sep sep s : has_char sep s = false -> split sep s = [s].
Proof.
  induction s as [|c s IH]; simpl; [reflexivity|].
  intro H. apply orb_false_iff in H as [H1 H2].
  rewrite H1, (IH H2). reflexivity.
Qed.

Lemma split_app sep a b :
  has_char sep a = false ->
  split sep (a ++ String sep b) = a :: split sep b.
Proof.
  induction a as [|c a IH]; simpl.
  - intros _. now rewrite Ascii.eqb_refl.
  - intro H. apply orb_false_iff in H as [H1 H2].
    rewrite H1, (IH H2). reflexivity.
Qed.

Lemma bearer_token_of_header scheme t :
  has_char " " scheme = false -> has_char " " t = false -> t <> EmptyString ->
  bearer_token (Some (scheme ++ String " " t)%string) = Some t.
Proof.
  intros Hs Ht Hn. unfold bearer_token.
  rewrite (split_app _ _ _ Hs), (split_no_sep _ _ Ht).
  destruct t; [congruence | reflexivity].
Qed.

Section ServerProperties.

Variable jwt_verify : string -> option jwt_user.

Lemma authenticateToken_eq authHeader :
  authenticateToken jwt_verify authHeader =
    match bearer_token authHeader with
    | None => respond unauthorized
    | Some t =>
        match jwt_verify t with
        | None => respond forbidden
        | Some user => next user
        end
    end.
Proof.
  unfold authenticateToken, bearer_token.
  destruct authHeader as [h|]; [|reflexivity].
  destruct h as [|c h]; [reflexivity|].
  destruct (split " " (String c h)) as [|w [|t ws]]; try reflexivity.
  cbn [nth_error]. destruct t; reflexivity.
Qed.

(** C9. On every route behind [authenticateToken], whatever its handler: a
    request whose [Authorization] header carries no token (no header, or no
    second word in it) is answered 401 and one whose token [jwt.verify]
    rejects is answered 403, both without running the handler or touching
    the store; the handler runs, for the verified user, exactly when the
    token is valid. A header [<scheme> <token>] carries the token
    [<token>]. *)
Theorem authenticated_statuses {B : Type}
    (handler : jwt_user -> B -> db -> response * db)
    (req : request B) (d : db) :
  (bearer_token (authorization req) = None ->
   authenticated jwt_verify handler req d = (unauthorized, d)) /\
  (forall t, bearer_token (authorization req) = Some t ->
             jwt_verify t = None ->
   authenticated jwt_verify handler req d = (forbidden, d)) /\
  (forall t user, bearer_token (authorization req) = Some t ->
                  jwt_verify t = Some user ->
   authenticated jwt_verify handler req d = handler user (body req) d) /\
  status unauthorized = 401%Z /\ status forbidden = 403%Z /\
  (authorization req = None -> bearer_token (authorization req) = None) /\
  (forall scheme t,
     has_char " " scheme = false -> has_char " " t = false ->
     t <> EmptyString ->
     authorization req = Some (scheme ++ String " " t)%string ->
     bearer_token (authorization req) = Some t).
Proof.
  unfold authenticated. rewrite authenticateToken_eq.
  repeat split.
  - now intros ->.
  - now intros t -> ->.
  - now intros t user -> ->.
  - now intros ->.
  - intros scheme t Hs Ht Hn ->. now apply bearer_token_of_header.
Qed.

End ServerProperties.

Lemma authenticated_statuses_witness :
  authenticated sample_verify get_api_dashboard_stats
    {| authorization := None; body := tt |} sample_db
  = (unauthorized, sample_db) /\
  authenticated sample_verify get_api_dashboard_stats
    {| authorization := Some "Bearer stale-token"%string; body := tt |} sample_db
  = (forbidden, sample_db) /\
  authenticated sample_verify get_api_dashboard_stats
    {| authorization := Some "Bearer demo-token"%string; body := tt |} sample_db
  = get_api_dashboard_stats demo_user tt sample_db.
Proof.
  split; [|split].
  - apply (authenticated_statuses sample_verify get_api_dashboard_stats
             {| authorization := None; body := tt |} sample_db).
    reflexivity.
  - apply (authenticated_statuses sample_verify get_api_dashboard_stats
             {| authorization := Some "Bearer stale-token"%string; body := tt |}
             sample_db) with (t := "stale-token"%string); reflexivity.
  - apply (authenticated_statuses sample_verify get_api_dashboard_stats
             {| authorization := Some "Bearer demo-token"%string; body := tt |}
             sample_db) with (t := "demo-token"%string); reflexivity.
Defined.

(** ** The ingestion route *)

(** Against C7 as it is stated: on the sample store the route answers
    500, not 400, when the sensor identifier is missing, when it is unknown
    and when [co2_value] is missing. *)
Lemma post_api_emissions_not_400 :
  (sensor_id body_without_sensor = None /\
   status (fst (post_api_emissions sample_js_env sample_env demo_user
                  body_without_sensor sample_db)) = 500%Z /\
   status (fst (post_api_emissions sample_js_env sample_env demo_user
                  body_without_sensor sample_db)) <> 400%Z) /\
  (sensor_id body_unknown_sensor = Some "SENSOR_999"%string /\
   has_Sensor "SENSOR_999" sample_db = false /\
   status (fst (post_api_emissions sample_js_env sample_env demo_user
                  body_unknown_sensor sample_db)) <> 400%Z) /\
  (co2_value body_without_co2 = None /\
   status (fst (post_api_emissions sample_js_env sample_env demo_user
                  body_without_co2 sample_db)) <> 400%Z).
Proof.
  repeat split; try reflexivity; vm_compute; discriminate.
Qed.

(** C7, as the code has it. The route checks nothing itself. When the
    sensor identifier is missing or unknown, or [co2_value] is missing, the
    [INSERT] fails and the answer is 500 with the error
    ['Failed to record emission'], the store being left as it was; the
    answer is never 400. The answer is 201 only when the insertion went
    through, which takes a known sensor and a [co2_value], and the reading
    is then in [Emission_Data]. *)
Theorem post_api_emissions_no_validation (je : js_env) (e : env)
    (user : jwt_user) (b : emission_body) (d : db) :
  (sensor_id b = None \/ co2_value b = None \/
   (exists sid, sensor_id b = Some sid /\ has_Sensor sid d = false) ->
   post_api_emissions je e user b d = (failed_to_record, d)) /\
  (status (fst (post_api_emissions je e user b d)) = 201%Z \/
   post_api_emissions je e user b d = (failed_to_record, d)) /\
  status failed_to_record = 500%Z /\
  (status (fst (post_api_emissions je e user b d)) = 201%Z ->
   (exists sid co2, sensor_id b = Some sid /\ has_Sensor sid d = true /\
                    co2_value b = Some co2) /\
   has_Emission_Data (request_emission_id je)
     (snd (post_api_emissions je e user b d)) = true).
Proof.
  unfold post_api_emissions. fold (request_emission_id je).
  destruct (insert_Emission_Data e (request_emission_id je) (NOW e) (co2_value b)
              (pm25_value b) (temperature b) (humidity b) (sensor_id b) d)
    as [[u d']|] eqn:E.
  - pose proof (insert_records_id _ _ _ _ _ _ _ _ _ _ _ E) as Hrec.
    apply insert_Emission_Data_inv in E.
    destruct E as (co2 & sid & s & Ec & Es & _ & Hs & _).
    assert (Hk : has_Sensor sid d = true).
    { destruct (has_Sensor sid d) eqn:K; [reflexivity|].
      apply has_Sensor_sensors_of in K. congruence. }
    split; [|split; [|split]].
    + intros [H | [H | (sid' & H1 & H2)]]; congruence.
    + now left.
    + reflexivity.
    + intros _. split; [|exact Hrec]. exists sid, co2. auto.
  - split; [|split; [|split]].
    + reflexivity.
    + now right.
    + reflexivity.
    + cbn [fst status failed_to_record]. discriminate.
Qed.

Lemma post_api_emissions_no_validation_witness :
  post_api_emissions sample_js_env sample_env demo_user body_unknown_sensor
    sample_db = (failed_to_record, sample_db) /\
  has_Emission_Data (request_emission_id sample_js_env)
    (snd (post_api_emissions sample_js_env sample_env demo_user body_850
            sample_db)) = true.
Proof.
  split.
  - apply (post_api_emissions_no_validation sample_js_env sample_env demo_user
             body_unknown_sensor sample_db).
    right. right. exists "SENSOR_999"%string. split; reflexivity.
  - apply (post_api_emissions_no_validation sample_js_env sample_env demo_user
             body_850 sample_db).
    reflexivity.
Defined.

(** ** The dashboard figures *)

Lemma or_zero_eq x : or_zero x == x.
Proof.
  unfold or_zero. destruct (Qeq_bool x 0) eqn:E; [|reflexivity].
  apply Qeq_bool_iff in E. now rewrite E.
Qed.

Lemma in_emissions_of_user uid d ed s :
  In (ed, s) (emissions_of_user uid d) <->
  In ed (db_Emission_Data d) /\ In s (db_Sensor d) /\
  Emission_Data.sensor_id ed = Sensor.sensor_id s /\ Sensor.user_id s = uid.
Proof.
  unfold emissions_of_user. rewrite in_flat_map. split.
  - intros (ed0 & Hed & Hin). apply in_map_iff in Hin as (s0 & E & Hs).
    injection E as -> ->. apply filter_In in Hs as (Hs & Hp).
    apply andb_true_iff in Hp as (H1 & H2).
    apply String.eqb_eq in H1. apply Z.eqb_eq in H2. auto.
  - intros (Hed & Hs & H1 & H2). exists ed. split; [exact Hed|].
    apply in_map. apply filter_In. split; [exact Hs|].
    apply andb_true_iff. split; [now apply String.eqb_eq | now apply Z.eqb_eq].
Qed.

Lemma order_by_desc_limit_1_max {A} (key : A -> Z) rows r :
  order_by_desc_limit_1 key rows = Some r ->
  In r rows /\ forall r', In r' rows -> (key r' <= key r)%Z.
Proof.
  revert r. induction rows as [|x rows IH]; simpl; [discriminate|].
  intros r. destruct (order_by_desc_limit_1 key rows) as [m|] eqn:E.
  - destruct (IH m eq_refl) as (Hm & Hmax).
    destruct (Z.ltb_spec (key x) (key m)) as [Hlt | Hge];
      intro H; injection H as <-.
    + split; [now right|]. intros r' [<- | Hr']; [lia | now apply Hmax].
    + split; [now left|]. intros r' [<- | Hr']; [lia|].
      specialize (Hmax r' Hr'). lia.
  - intro H. injection H as <-. split; [now left|].
    destruct rows; [|simpl in E; destruct (order_by_desc_limit_1 key rows);
                     [destruct (_ <? _)%Z|]; discriminate].
    intros r' [<- | []]. lia.
Qed.

Lemma order_by_desc_limit_1_none {A} (key : A -> Z) rows :
  order_by_desc_limit_1 key rows = None -> rows = [].
Proof.
  destruct rows as [|x rows]; [reflexivity|]. simpl.
  destruct (order_by_desc_limit_1 key rows); [destruct (_ <? _)%Z|]; discriminate.
Qed.

Lemma Qsum_constant {A} (f : A -> Q) (a : Q) (l : list A) :
  (forall x, In x l -> f x = a) ->
  Qsum (map f l) == a * inject_Z (Z.of_nat (length l)).
Proof.
  induction l as [|x l IH]; intro H.
  - simpl. ring.
  - cbn [map Qsum fold_right length]. fold (Qsum (map f l)).
    rewrite IH by (intros; apply H; now right).
    rewrite (H x) by now left.
    rewrite Nat2Z.inj_succ, <- Z.add_1_r, inject_Z_plus. ring.
Qed.

Lemma Qsum_app l1 l2 : Qsum (l1 ++ l2) == Qsum l1 + Qsum l2.
Proof.
  induction l1 as [|x l1 IH]; simpl.
  - ring.
  - fold (Qsum (l1 ++ l2)). fold (Qsum l1). rewrite IH. ring.
Qed.

Lemma Qsum_flat_map {A B} (g : A -> list B) (f : B -> Q) (h : A -> Q) l :
  (forall a, In a l -> Qsum (map f (g a)) == h a) ->
  Qsum (map f (flat_map g l)) == Qsum (map h l).
Proof.
  induction l as [|a l IH]; intro H; simpl; [reflexivity|].
  rewrite map_app, Qsum_app. fold (Qsum (map h l)).
  rewrite IH by (intros; apply H; now right).
  rewrite (H a) by now left. reflexivity.
Qed.

Lemma COALESCE_SUM l : COALESCE (SUM l) 0 = Qsum l.
Proof. destruct l; reflexivity. Qed.

Lemma credit_paths_sum uid d cc :
  Qsum (map (fun r => Carbon_Credit.credit_amount (fst (fst (fst r))))
            (flat_map
               (fun cem =>
                  flat_map
                    (fun ed =>
                       map (fun s => (cc, cem, ed, s))
                         (filter (fun s => String.eqb (Emission_Data.sensor_id ed)
                                                      (Sensor.sensor_id s)
                                           && (Sensor.user_id s =? uid)%Z)
                                 (db_Sensor d)))
                    (filter (fun ed => String.eqb (Credit_Emission_Map.emission_id cem)
                                                  (Emission_Data.emission_id ed))
                            (db_Emission_Data d)))
               (filter (fun cem => String.eqb (Carbon_Credit.credit_id cc)
                                              (Credit_Emission_Map.credit_id cem))
                       (db_Credit_Emission_Map d))))
  == Carbon_Credit.credit_amount cc * inject_Z (Z.of_nat (path_count uid d cc)).
Proof.
  rewrite Qsum_constant with (a := Carbon_Credit.credit_amount cc).
  - match goal with
    | |- _ * inject_Z (Z.of_nat (length ?X)) == _ =>
        assert (E : length X = path_count uid d cc)
    end.
    { unfold path_count. rewrite length_flat_map. f_equal.
      apply map_ext. intro cem.
      rewrite length_flat_map. f_equal. apply map_ext. intro ed.
      apply length_map. }
    now rewrite E.
  - intros x Hx. apply in_flat_map in Hx as (cem & _ & Hx).
    apply in_flat_map in Hx as (ed & _ & Hx).
    apply in_map_iff in Hx as (s & <- & _). reflexivity.
Qed.

Section NoSensor.

Variables (uid : Z) (d : db).
Hypothesis Hnone : owns_no_sensor uid d.

Lemma no_sensor_joined (p : Sensor.row -> bool) :
  filter (fun s => p s && (Sensor.user_id s =? uid)%Z) (db_Sensor d) = [].
Proof.
  unfold owns_no_sensor in Hnone.
  induction (db_Sensor d) as [|s l IH]; simpl; [reflexivity|].
  assert (N : (Sensor.user_id s =? uid)%Z = false).
  { apply Z.eqb_neq. apply Hnone. now left. }
  rewrite N, andb_false_r. apply IH. intros; apply Hnone; now right.
Qed.

Lemma no_sensor_counted (p : Sensor.row -> bool) :
  filter (fun s => (Sensor.user_id s =? uid)%Z && p s) (db_Sensor d) = [].
Proof.
  unfold owns_no_sensor in Hnone.
  induction (db_Sensor d) as [|s l IH]; simpl; [reflexivity|].
  assert (N : (Sensor.user_id s =? uid)%Z = false).
  { apply Z.eqb_neq. apply Hnone. now left. }
  rewrite N. apply IH. intros; apply Hnone; now right.
Qed.

Lemma no_sensor_emissions : emissions_of_user uid d = [].
Proof.
  unfold emissions_of_user. apply flat_map_nil. intro ed.
  now rewrite no_sensor_joined.
Qed.

Lemma no_sensor_credits : credits_of_user uid d = [].
Proof.
  unfold credits_of_user.
  apply flat_map_nil. intro cc. apply flat_map_nil. intro cem.
  apply flat_map_nil. intro ed. now rewrite no_sensor_joined.
Qed.

Lemma no_sensor_alerts (p : Alert.row -> bool) :
  Forall (alert_owner_has_sensor d) (db_Alert d) ->
  filter (fun a => (Alert.user_id a =? uid)%Z && p a) (db_Alert d) = [].
Proof.
  induction 1 as [|a l (s & Hs & Hu) _ IH]; simpl; [reflexivity|].
  assert (N : (Alert.user_id a =? uid)%Z = false).
  { apply Z.eqb_neq. rewrite <- Hu. now apply Hnone. }
  now rewrite N.
Qed.

End NoSensor.

Lemma sample_both_reachable : reachable sample_both.
Proof.
  apply reachable_step with (d := submit sample_850 sample_db).
  - exact sample_850_reachable.
  - apply (step_emission (sub_env sample_1050) (sub_emission_id sample_1050)
             (sub_timestamp sample_1050) (sub_co2_value sample_1050)
             (sub_pm25_value sample_1050) (sub_temperature sample_1050)
             (sub_humidity sample_1050) (sub_sensor_id sample_1050)).
    reflexivity.
Qed.

(** C8. For every user the dashboard route answers 200 with four figures
    and leaves the store alone: the [co2_value] of a reading of the user's
    sensors that no other such reading is later than, or 0 when there is
    none; the sum of the credit amounts reached from the user's sensors,
    each credit counted once per link row, reading and sensor that join it
    to the user, which is 0 when there are none; the number of the user's
    sensors whose status is ['active']; the number of the user's alerts
    that are unread. For a user who owns no sensor the first three are 0,
    and so is the fourth in every store reached by insertions and
    registrations from one where nothing was derived, alerts being raised
    only for the owner of a sensor. *)
Theorem dashboard_stats_correct (user : jwt_user) (d : db) :
  exists current_emission total_credits active_sensors unread_alerts,
    get_api_dashboard_stats user tt d =
      ({| status := 200;
          payload := json_stats current_emission total_credits
                       active_sensors unread_alerts |}, d) /\
    (((forall ed, ~ reading_of_user (user_id user) d ed) /\
      current_emission = 0)
     \/
     (exists ed,
        reading_of_user (user_id user) d ed /\
        current_emission == Emission_Data.co2_value ed /\
        forall ed', reading_of_user (user_id user) d ed' ->
          (Emission_Data.timestamp ed' <= Emission_Data.timestamp ed)%Z)) /\
    total_credits ==
      Qsum (map (fun cc => Carbon_Credit.credit_amount cc
                           * inject_Z (Z.of_nat (path_count (user_id user) d cc)))
                (db_Carbon_Credit d)) /\
    active_sensors =
      length (filter (fun s => (Sensor.user_id s =? user_id user)%Z
                               && is_active s) (db_Sensor d)) /\
    unread_alerts =
      length (filter (fun a => (Alert.user_id a =? user_id user)%Z
                               && is_unread a) (db_Alert d)) /\
    (forall s, is_active s = true <-> Sensor.status s = Some "active"%string) /\
    (forall a, is_unread a = true <-> Alert.is_read a = Some false) /\
    (owns_no_sensor (user_id user) d ->
     current_emission = 0 /\ total_credits = 0 /\ active_sensors = 0%nat /\
     (reachable d -> unread_alerts = 0%nat)).
Proof.
  unfold get_api_dashboard_stats.
  eexists _, _, _, _. split; [reflexivity|].
  split; [|split; [|split; [|split; [|split; [|split]]]]].
  - destruct (order_by_desc_limit_1 _ (emissions_of_user (user_id user) d))
      as [[ed s]|] eqn:E.
    + right. apply order_by_desc_limit_1_max in E as (Hin & Hmax).
      apply in_emissions_of_user in Hin as (H1 & H2 & H3 & H4).
      exists ed. split; [split; [exact H1 | now exists s]|].
      split; [apply or_zero_eq|].
      intros ed' (I1 & s' & I2 & I3 & I4).
      apply (Hmax (ed', s')). apply in_emissions_of_user. auto.
    + left. apply order_by_desc_limit_1_none in E. split; [|reflexivity].
      intros ed (I1 & s' & I2 & I3 & I4).
      assert (In (ed, s') (emissions_of_user (user_id user) d))
        by (apply in_emissions_of_user; auto).
      rewrite E in H. contradiction.
  - rewrite or_zero_eq, COALESCE_SUM. unfold credits_of_user.
    apply Qsum_flat_map. intros cc _. apply credit_paths_sum.
  - reflexivity.
  - reflexivity.
  - intro s. unfold is_active. destruct (Sensor.status s) as [st|].
    + rewrite String.eqb_eq. split; [now intros -> | now intros [= ->]].
    + split; discriminate.
  - intro a. unfold is_unread. destruct (Alert.is_read a) as [[|]|]; simpl;
      split; congruence.
  - intros Hn.
    rewrite (no_sensor_emissions _ _ Hn), (no_sensor_credits _ _ Hn),
            (no_sensor_counted _ _ Hn).
    repeat split. intro Hr.
    now rewrite (no_sensor_alerts _ _ Hn _
                   (inv_alert_owner _ (reachable_store_inv _ Hr))).
Qed.

Lemma dashboard_stats_correct_witness :
  get_api_dashboard_stats eco_user tt sample_both
  = ({| status := 200; payload := json_stats 0 0 0 0 |}, sample_both).
Proof.
  destruct (dashboard_stats_correct eco_user sample_both)
    as (c & t & a & u & E & _ & _ & _ & _ & _ & _ & Z).
  destruct Z as (-> & -> & -> & U).
  - intros s Hs. vm_compute in Hs.
    destruct Hs as [<- | [<- | [<- | [<- | []]]]]; vm_compute; discriminate.
  - rewrite (U sample_both_reachable) in E. exact E.
Defined.

(** * Properties of the rest of the code *)

(** ** Sorting and limiting *)

Lemma insert_by_perm {A} (before : A -> A -> bool) x l :
  Permutation (x :: l) (insert_by before x l).
Proof.
  induction l as [|y l IH]; simpl; [reflexivity|].
  destruct (before x y); [reflexivity|].
  rewrite perm_swap. now constructor.
Qed.

Lemma ORDER_BY_perm {A} (before : A -> A -> bool) l :
  Permutation l (ORDER_BY before l).
Proof.
  induction l as [|x l IH]; simpl; [reflexivity|].
  rewrite <- insert_by_perm. now constructor.
Qed.

Lemma null_leb_total a b : null_leb a b = false -> null_leb b a = true.
Proof.
  destruct a as [x|], b as [y|]; simpl; try congruence.
  intro H. apply Z.leb_gt in H. apply Z.leb_le. lia.
Qed.

Lemma null_leb_trans a b c :
  null_leb a b = true -> null_leb b c = true -> null_leb a c = true.
Proof.
  destruct a as [x|], b as [y|], c as [z|]; simpl; try congruence.
  rewrite !Z.leb_le. lia.
Qed.

Section Sorting.

Context {A : Type}.
Variable before : A -> A -> bool.
Hypothesis before_total : forall x y, before x y = false -> before y x = true.
Hypothesis before_trans :
  forall x y z, before x y = true -> before y z = true -> before x z = true.

Lemma insert_by_sorted x l :
  StronglySorted (fun a b => before a b = true) l ->
  StronglySorted (fun a b => before a b = true) (insert_by before x l).
Proof.
  induction 1 as [|y l S IH F]; simpl.
  - repeat constructor.
  - destruct (before x y) eqn:E.
    + constructor; [now constructor|]. constructor; [exact E|].
      rewrite Forall_forall in *. intros z Hz. eapply before_trans; eauto.
    + constructor; [exact IH|].
      rewrite Forall_forall in *. intros z Hz.
      apply (Permutation_in _ (Permutation_sym (insert_by_perm before x l))) in Hz.
      destruct Hz as [<- | Hz]; [now apply before_total | now apply F].
Qed.

Lemma ORDER_BY_sorted l :
  StronglySorted (fun a b => before a b = true) (ORDER_BY before l).
Proof.
  induction l as [|x l IH]; simpl; [constructor | now apply insert_by_sorted].
Qed.

End Sorting.

Lemma in_firstn {A} n (l : list A) x : In x (firstn n l) -> In x l.
Proof.
  intro H. rewrite <- (firstn_skipn n l). apply in_or_app. now left.
Qed.

Lemma in_skipn {A} n (l : list A) x : In x (skipn n l) -> In x l.
Proof.
  intro H. rewrite <- (firstn_skipn n l). apply in_or_app. now right.
Qed.

Lemma StronglySorted_split {A} (R : A -> A -> Prop) n l :
  StronglySorted R l ->
  StronglySorted R (firstn n l) /\
  forall x y, In x (firstn n l) -> In y (skipn n l) -> R x y.
Proof.
  intro S. revert n. induction S as [|a l S IH F]; intro n.
  - destruct n; simpl; split; try constructor; intros x y [].
  - destruct n as [|n]; simpl.
    + split; [constructor|]. intros x y [].
    + destruct (IH n) as [S1 H1]. split.
      * constructor; [exact S1|]. rewrite Forall_forall in *.
        intros x Hx. apply F. eapply in_firstn; eauto.
      * intros x y [<- | Hx] Hy; [|now apply H1].
        rewrite Forall_forall in F. apply F. eapply in_skipn; eauto.
Qed.

(** What [ORDER BY key DESC LIMIT n] keeps of a list of rows. *)
Lemma newest_first {A} (key : A -> option Z) (n : nat) (rows : list A) :
  let kept := LIMIT n (ORDER_BY (desc key) rows) in
  (length kept <= n)%nat /\
  (forall r, In r kept -> In r rows) /\
  StronglySorted (fun a b => null_leb (key b) (key a) = true) kept /\
  (exists rest,
     Permutation rows (kept ++ rest) /\
     forall a b, In a kept -> In b rest -> null_leb (key b) (key a) = true) /\
  ((length rows <= n)%nat -> Permutation rows kept) /\
  ((n < length rows)%nat -> length kept = n).
Proof.
  intro kept. unfold kept, LIMIT.
  assert (S : StronglySorted (fun a b => desc key a b = true)
                (ORDER_BY (desc key) rows)).
  { apply ORDER_BY_sorted; unfold desc.
    - intros x y. apply null_leb_total.
    - intros x y z H1 H2. eapply null_leb_trans; eauto. }
  destruct (StronglySorted_split _ n _ S) as [S1 S2].
  split; [apply firstn_le_length|].
  split.
  { intros r Hr. apply in_firstn in Hr.
    eapply Permutation_in; [apply Permutation_sym, ORDER_BY_perm | exact Hr]. }
  split; [exact S1|].
  split.
  - exists (skipn n (ORDER_BY (desc key) rows)). split; [|exact S2].
    rewrite firstn_skipn. apply ORDER_BY_perm.
  - split.
    + intro Hlen. rewrite firstn_all2.
      * apply ORDER_BY_perm.
      * now rewrite <- (Permutation_length (ORDER_BY_perm (desc key) rows)).
    + intro Hlen. apply firstn_length_le.
      rewrite <- (Permutation_length (ORDER_BY_perm (desc key) rows)). lia.
Qed.

Lemma StronglySorted_map {A B} (f : A -> B) (R : B -> B -> Prop) l :
  StronglySorted (fun a b => R (f a) (f b)) l -> StronglySorted R (map f l).
Proof.
  induction 1 as [|a l S IH F]; simpl; constructor; [exact IH|].
  rewrite Forall_forall in *. intros y Hy.
  apply in_map_iff in Hy as (x & <- & Hx). now apply F.
Qed.

Lemma StronglySorted_weaken {A} (R R' : A -> A -> Prop) l :
  (forall a b, R a b -> R' a b) -> StronglySorted R l -> StronglySorted R' l.
Proof.
  intros H. induction 1 as [|a l S IH F]; constructor; [exact IH|].
  eapply Forall_impl; [|exact F]. intros b. apply H.
Qed.

Lemma hd_insert_by {A} (before : A -> A -> bool) x l :
  hd_error (insert_by before x l) =
    match hd_error l with
    | None => Some x
    | Some y => if before x y then Some x else Some y
    end.
Proof. destruct l as [|y l]; simpl; [reflexivity|]. now destruct (before x y). Qed.

Lemma hd_ORDER_BY_desc {A} (key : A -> Z) l :
  hd_error (ORDER_BY (desc (fun r => Some (key r))) l)
  = order_by_desc_limit_1 key l.
Proof.
  induction l as [|x l IH]; simpl; [reflexivity|].
  rewrite hd_insert_by, IH.
  destruct (order_by_desc_limit_1 key l) as [y|]; [|reflexivity].
  unfold desc. simpl.
  destruct (Z.leb_spec (key y) (key x)), (Z.ltb_spec (key x) (key y));
    try reflexivity; lia.
Qed.

(** ** [GET /api/emissions/recent] *)

(** X1. The route answers 200 with at most 50 rows, each the reading of a
    sensor the requesting user owns together with that sensor's location
    and type, in order of timestamp, newest first; and a reading of the
    user that is not returned is not newer than any of the 50 that are. *)
Theorem emissions_recent_newest_of_user (user : jwt_user) (d : db) :
  fst (get_api_emissions_recent user d) = 200%Z /\
  (length (snd (get_api_emissions_recent user d)) <= 50)%nat /\
  (forall r, In r (snd (get_api_emissions_recent user d)) ->
     In (recent_reading r) (db_Emission_Data d) /\
     exists s, In s (db_Sensor d) /\
               Emission_Data.sensor_id (recent_reading r) = Sensor.sensor_id s /\
               Sensor.user_id s = user_id user /\
               recent_location r = Sensor.location s /\
               recent_sensor_type r = Sensor.sensor_type s) /\
  StronglySorted
    (fun a b => (Emission_Data.timestamp (recent_reading b)
                 <= Emission_Data.timestamp (recent_reading a))%Z)
    (snd (get_api_emissions_recent user d)) /\
  (forall ed, reading_of_user (user_id user) d ed ->
     (exists r, In r (snd (get_api_emissions_recent user d)) /\
                recent_reading r = ed)
     \/
     (length (snd (get_api_emissions_recent user d)) = 50%nat /\
      forall r, In r (snd (get_api_emissions_recent user d)) ->
        (Emission_Data.timestamp ed
         <= Emission_Data.timestamp (recent_reading r))%Z)).
Proof.
  unfold get_api_emissions_recent. cbn [fst snd].
  set (key := fun r : Emission_Data.row * Sensor.row =>
                Some (Emission_Data.timestamp (fst r))).
  destruct (newest_first key 50 (emissions_of_user (user_id user) d))
    as (Hlen & Hin & Hs & (rest & Hperm & Hrest) & Hall & Hfull).
  set (kept := LIMIT 50 (ORDER_BY (desc key) (emissions_of_user (user_id user) d)))
    in *.
  split; [reflexivity|].
  split; [now rewrite length_map|].
  split.
  { intros r Hr. apply in_map_iff in Hr as ([ed s] & <- & Hk).
    apply Hin, in_emissions_of_user in Hk as (H1 & H2 & H3 & H4).
    split; [exact H1|]. exists s. cbn [recent_reading recent_location
                                       recent_sensor_type fst snd]. auto. }
  split.
  { apply StronglySorted_map. eapply StronglySorted_weaken; [|exact Hs].
    intros a b. unfold key. cbn [null_leb recent_reading]. apply Z.leb_le. }
  intros ed (H1 & s & H2 & H3 & H4).
  assert (I : In (ed, s) (emissions_of_user (user_id user) d))
    by (apply in_emissions_of_user; auto).
  apply (Permutation_in _ Hperm), in_app_or in I. destruct I as [I | I].
  - left. eexists. split; [apply in_map; exact I | reflexivity].
  - right. split.
    + rewrite length_map. apply Hfull.
      destruct (Nat.le_gt_cases (length (emissions_of_user (user_id user) d)) 50)
        as [L | L]; [|exact L].
      exfalso. pose proof (Permutation_length Hperm) as E1.
      pose proof (Permutation_length (Hall L)) as E2.
      rewrite length_app in E1. destruct rest; [contradiction|].
      simpl in E1. lia.
    + intros r Hr. apply in_map_iff in Hr as (p & <- & Hp).
      specialize (Hrest p (ed, s) Hp I). unfold key in Hrest.
      cbn [null_leb recent_reading fst] in *. now apply Z.leb_le.
Qed.

Lemma emissions_recent_newest_of_user_witness :
  exists r,
    hd_error (snd (get_api_emissions_recent demo_user sample_both)) = Some r /\
    In (recent_reading r) (db_Emission_Data sample_both) /\
    Emission_Data.co2_value (recent_reading r) = 1050.
Proof.
  eexists. split; [reflexivity|]. split; [|reflexivity].
  destruct (emissions_recent_newest_of_user demo_user sample_both)
    as (_ & _ & H & _).
  apply H. vm_compute. left. reflexivity.
Defined.

(** ** [GET /api/alerts] *)

(** X2. The route answers 200 with at most 50 alerts, all of them alerts of
    the requesting user, read or not, in order of creation time, newest
    first and those without one last; and an alert of the user that is not
    returned is not newer than any of the 50 that are. *)
Theorem alerts_newest_of_user (user : jwt_user) (d : db) :
  fst (get_api_alerts user d) = 200%Z /\
  (length (snd (get_api_alerts user d)) <= 50)%nat /\
  (forall a, In a (snd (get_api_alerts user d)) ->
     In a (db_Alert d) /\ Alert.user_id a = user_id user) /\
  StronglySorted
    (fun a b => null_leb (Alert.created_at b) (Alert.created_at a) = true)
    (snd (get_api_alerts user d)) /\
  (forall a, In a (db_Alert d) -> Alert.user_id a = user_id user ->
     In a (snd (get_api_alerts user d))
     \/
     (length (snd (get_api_alerts user d)) = 50%nat /\
      forall b, In b (snd (get_api_alerts user d)) ->
        null_leb (Alert.created_at a) (Alert.created_at b) = true)).
Proof.
  unfold get_api_alerts. cbn [fst snd].
  set (mine := filter (fun a => (Alert.user_id a =? user_id user)%Z) (db_Alert d)).
  destruct (newest_first Alert.created_at 50 mine)
    as (Hlen & Hin & Hs & (rest & Hperm & Hrest) & Hall & Hfull).
  set (kept := LIMIT 50 (ORDER_BY (desc Alert.created_at) mine)) in *.
  split; [reflexivity|].
  split; [exact Hlen|].
  split.
  { intros a Ha. apply Hin in Ha. unfold mine in Ha.
    apply filter_In in Ha as (H1 & H2). split; [exact H1 | now apply Z.eqb_eq]. }
  split; [exact Hs|].
  intros a Ha Hu.
  assert (I : In a mine).
  { unfold mine. apply filter_In. split; [exact Ha | now apply Z.eqb_eq]. }
  apply (Permutation_in _ Hperm), in_app_or in I. destruct I as [I | I].
  - now left.
  - right. split.
    + apply Hfull.
      destruct (Nat.le_gt_cases (length mine) 50) as [L | L]; [|exact L].
      exfalso. pose proof (Permutation_length Hperm) as E1.
      pose proof (Permutation_length (Hall L)) as E2.
      rewrite length_app in E1. destruct rest; [contradiction|].
      simpl in E1. lia.
    + intros b Hb. now apply Hrest.
Qed.

Lemma alerts_newest_of_user_witness :
  exists a,
    hd_error (snd (get_api_alerts demo_user sample_both)) = Some a /\
    Alert.user_id a = user_id demo_user /\
    snd (get_api_alerts eco_user sample_both) = [].
Proof.
  eexists. split; [reflexivity|]. split; [|reflexivity].
  destruct (alerts_newest_of_user demo_user sample_both) as (_ & _ & H & _).
  apply H. vm_compute. left. reflexivity.
Defined.

(** X3. The two routes agree on the latest reading: when
    [/api/emissions/recent] returns no row the dashboard's current emission
    is 0, and otherwise it is the [co2_value] of a reading of the user that
    has the timestamp of the first row returned. *)
Theorem dashboard_current_is_first_recent (user : jwt_user) (d : db) :
  match snd (get_api_emissions_recent user d) with
  | [] =>
      stat_current_emission (fst (get_api_dashboard_stats user tt d)) = 0
  | r :: _ =>
      exists ed,
        reading_of_user (user_id user) d ed /\
        Emission_Data.timestamp ed = Emission_Data.timestamp (recent_reading r) /\
        stat_current_emission (fst (get_api_dashboard_stats user tt d))
        == Emission_Data.co2_value ed
  end.
Proof.
  unfold get_api_emissions_recent, get_api_dashboard_stats, stat_current_emission.
  cbn [fst snd payload].
  rewrite <- hd_ORDER_BY_desc.
  set (sorted := ORDER_BY _ (emissions_of_user (user_id user) d)).
  assert (Hin : forall p, In p sorted -> In p (emissions_of_user (user_id user) d)).
  { intros p Hp. eapply Permutation_in; [apply Permutation_sym, ORDER_BY_perm|].
    exact Hp. }
  destruct sorted as [|[ed s] rest]; cbn [LIMIT firstn map hd_error];
    [reflexivity|].
  exists ed. split.
  - assert (I : In (ed, s) (emissions_of_user (user_id user) d))
      by (apply Hin; now left).
    apply in_emissions_of_user in I as (H1 & H2 & H3 & H4).
    split; [exact H1 | now exists s].
  - split; [reflexivity | apply or_zero_eq].
Qed.

(** ** Registration and login *)

Lemma falsy_false x : falsy x = false -> exists s, x = Some s /\ s <> EmptyString.
Proof.
  destruct x as [[|c s]|]; simpl; try discriminate.
  intros _. eexists. split; [reflexivity | discriminate].
Qed.

Lemma select_User_by_email_taken em d :
  (0 <? length (select_User_by_email (Some em) d))%nat = email_taken em d.
Proof.
  unfold select_User_by_email, email_taken.
  induction (db_User d) as [|u l IH]; simpl; [reflexivity|].
  destruct (String.eqb (User.email u) em); simpl; [reflexivity | exact IH].
Qed.

Lemma select_User_by_email_fresh em l u :
  existsb (fun x => String.eqb (User.email x) em) l = false ->
  User.email u = em ->
  filter (fun x => String.eqb (User.email x) em) (l ++ [u]) = [u].
Proof.
  intros H E. induction l as [|x l IH]; simpl in *.
  - now rewrite E, String.eqb_refl.
  - apply orb_false_iff in H as [H1 H2]. rewrite H1. auto.
Qed.

Section AccountProperties.

Variable bcrypt_hash : string -> string -> string.
Variable bcrypt_compare : string -> string -> bool.
Variable jwt_sign : Z -> jwt_user -> string.
Variable jwt_verify : string -> option jwt_user.

Lemma register_eq re b d name email password :
  Register.name b = Some name -> Register.email b = Some email ->
  Register.password b = Some password ->
  name <> EmptyString -> email <> EmptyString -> password <> EmptyString ->
  post_api_auth_register bcrypt_hash re b d =
    if email_taken email d then (email_already_registered, d)
    else if has_User (reg_insertId re) d then (registration_failed, d)
    else
      ({| auth_status := 201;
          auth_payload :=
            auth_registered "Registration successful" (reg_insertId re) |},
       with_User d
         (db_User d ++
          [registered_row re name email (or_else (Register.role b) "operator")
             (bcrypt_hash (reg_salt re) password)])).
Proof.
  intros En Ee Ep Nn Ne Np. unfold post_api_auth_register.
  rewrite En, Ee, Ep.
  assert (F : falsy (Some name) || falsy (Some email) || falsy (Some password)
              = false).
  { destruct name, email, password; try congruence; reflexivity. }
  rewrite F, select_User_by_email_taken.
  destruct (email_taken email d) eqn:T; [reflexivity|].
  unfold insert_User. unfold email_taken in T. rewrite T.
  destruct (has_User (reg_insertId re) d); reflexivity.
Qed.

Lemma register_conflict re b d em :
  falsy (Register.name b) || falsy (Register.email b)
  || falsy (Register.password b) = false ->
  Register.email b = Some em -> email_taken em d = true ->
  post_api_auth_register bcrypt_hash re b d = (email_already_registered, d).
Proof.
  intros F Ee T.
  apply orb_false_iff in F as [F Fp]. apply orb_false_iff in F as [Fn Fe].
  apply falsy_false in Fn as (name & En & Nn).
  apply falsy_false in Fe as (email & Ee' & Ne).
  apply falsy_false in Fp as (password & Ep & Np).
  rewrite (register_eq re b d name email password En Ee' Ep Nn Ne Np).
  assert (email = em) by congruence. subst em. now rewrite T.
Qed.

(** X4. A registration that lacks the name, the email or the password, or
    has it empty, is answered 400; one whose email is already in [User] is
    answered 409; and whatever the answer, unless it is 201 the store is
    left as it was. *)
Theorem register_refusals (re : register_env) (b : Register.body) (d : db) :
  (falsy (Register.name b) || falsy (Register.email b)
   || falsy (Register.password b) = true ->
   post_api_auth_register bcrypt_hash re b d = (all_fields_required, d)) /\
  (forall em,
     falsy (Register.name b) || falsy (Register.email b)
     || falsy (Register.password b) = false ->
     Register.email b = Some em -> email_taken em d = true ->
     post_api_auth_register bcrypt_hash re b d = (email_already_registered, d)) /\
  (auth_status (fst (post_api_auth_register bcrypt_hash re b d)) <> 201%Z ->
   snd (post_api_auth_register bcrypt_hash re b d) = d).
Proof.
  split; [|split].
  - intro F. unfold post_api_auth_register. now rewrite F.
  - intros em F Ee T. now apply register_conflict with (em := em).
  - destruct (falsy (Register.name b) || falsy (Register.email b)
              || falsy (Register.password b)) eqn:F.
    + unfold post_api_auth_register. now rewrite F.
    + apply orb_false_iff in F as [F Fp]. apply orb_false_iff in F as [Fn Fe].
      apply falsy_false in Fn as (name & En & Nn).
      apply falsy_false in Fe as (email & Ee' & Ne).
      apply falsy_false in Fp as (password & Ep & Np).
      rewrite (register_eq re b d name email password En Ee' Ep Nn Ne Np).
      destruct (email_taken email d); [reflexivity|].
      destruct (has_User (reg_insertId re) d); [reflexivity|].
      cbn [fst auth_status]. congruence.
Qed.

(** X5. A registration with a name, an email nobody has yet and a password
    is answered 201 with the new key: [User] gains one row, with that key,
    the given name and email, the role ['operator'] unless one was given,
    and the hash of the password in place of the password; no other table
    changes, emails stay unique if they were, and from then on every
    registration with that email is refused: with 409, or with 400 when it
    lacks a field. The key is the one [AUTO_INCREMENT] hands out, which no
    row has yet. *)
Theorem register_creates_account (re : register_env) (b : Register.body)
    (d : db) (name email password : string) :
  Register.name b = Some name -> Register.email b = Some email ->
  Register.password b = Some password ->
  name <> EmptyString -> email <> EmptyString -> password <> EmptyString ->
  email_taken email d = false ->
  has_User (reg_insertId re) d = false ->
  exists d',
    post_api_auth_register bcrypt_hash re b d =
      ({| auth_status := 201;
          auth_payload :=
            auth_registered "Registration successful" (reg_insertId re) |}, d') /\
    db_User d' =
      db_User d ++
      [registered_row re name email (or_else (Register.role b) "operator")
         (bcrypt_hash (reg_salt re) password)] /\
    d' = with_User d (db_User d') /\
    (NoDup (map User.email (db_User d)) -> NoDup (map User.email (db_User d'))) /\
    (forall re' b',
       Register.email b' = Some email ->
       post_api_auth_register bcrypt_hash re' b' d' = (all_fields_required, d')
       \/
       post_api_auth_register bcrypt_hash re' b' d'
       = (email_already_registered, d')).
Proof.
  intros En Ee Ep Nn Ne Np T K.
  eexists. split.
  { rewrite (register_eq re b d name email password En Ee Ep Nn Ne Np), T, K.
    reflexivity. }
  cbn [with_User db_User]. split; [reflexivity|]. split; [reflexivity|].
  split.
  - intro ND. rewrite map_app. apply NoDup_app; [exact ND | |].
    + repeat constructor. intros [].
    + intros x Hx [<- | []]. apply existsb_eqb_false in T. now apply T.
  - intros re' b' Ee'.
    destruct (falsy (Register.name b') || falsy (Register.email b')
              || falsy (Register.password b')) eqn:F.
    + left. unfold post_api_auth_register. now rewrite F.
    + right. apply (register_conflict re' b') with (em := email);
        [exact F | exact Ee' |].
      unfold email_taken. cbn [with_User db_User].
      rewrite existsb_snoc. cbn [registered_row User.email].
      rewrite String.eqb_refl. apply orb_true_r.
Qed.

(** X6. A login never changes the store. It is answered with one and the
    same 401 whether no user has the email (or none was given) or the
    password does not match, so that the answer does not tell which; with
    500 when the user exists and no password was given; and with 200 only
    when [bcrypt.compare] accepts the password against the stored hash. *)
Theorem login_refusals (now : Z) (b : Login.body) (d : db) :
  snd (post_api_auth_login bcrypt_compare jwt_sign now b d) = d /\
  (select_User_by_email (Login.email b) d = [] ->
   fst (post_api_auth_login bcrypt_compare jwt_sign now b d)
   = invalid_credentials) /\
  (forall user rest password,
     select_User_by_email (Login.email b) d = user :: rest ->
     Login.password b = Some password ->
     bcrypt_compare password (User.password_hash user) = false ->
     fst (post_api_auth_login bcrypt_compare jwt_sign now b d)
     = invalid_credentials) /\
  (forall user rest,
     select_User_by_email (Login.email b) d = user :: rest ->
     Login.password b = None ->
     fst (post_api_auth_login bcrypt_compare jwt_sign now b d) = login_failed) /\
  (auth_status (fst (post_api_auth_login bcrypt_compare jwt_sign now b d))
   = 200%Z ->
   exists user rest password,
     select_User_by_email (Login.email b) d = user :: rest /\
     Login.password b = Some password /\
     bcrypt_compare password (User.password_hash user) = true).
Proof.
  unfold post_api_auth_login.
  destruct (select_User_by_email (Login.email b) d) as [|user rest].
  - repeat split; try reflexivity; try discriminate.
  - destruct (Login.password b) as [password|].
    + destruct (bcrypt_compare password (User.password_hash user)) eqn:C.
      * repeat split; try discriminate.
        -- intros u r p [= <- <-] [= <-]. congruence.
        -- intros _. exists user, rest, password. auto.
      * repeat split; try discriminate.
    + repeat split; try discriminate.
Qed.

(** X7. Registration and login fit together: after a registration answered
    201, a login with the same email and password is answered 200 with the
    token signed for the new key, the email and the stored role, and with
    the user's row, provided [bcrypt.compare] accepts a password against
    its own hash; a password it does not accept against that hash is
    answered 401. *)
Theorem register_then_login (re : register_env) (b : Register.body) (d : db)
    (name email password : string) (now : Z) :
  Register.name b = Some name -> Register.email b = Some email ->
  Register.password b = Some password ->
  name <> EmptyString -> email <> EmptyString -> password <> EmptyString ->
  email_taken email d = false ->
  has_User (reg_insertId re) d = false ->
  bcrypt_compare password (bcrypt_hash (reg_salt re) password) = true ->
  let d' := snd (post_api_auth_register bcrypt_hash re b d) in
  let role := or_else (Register.role b) "operator" in
  post_api_auth_login bcrypt_compare jwt_sign now
    {| Login.email := Some email; Login.password := Some password |} d'
  = ({| auth_status := 200;
        auth_payload :=
          auth_logged_in "Login successful"
            (jwt_sign now {| user_id := reg_insertId re; email := email;
                             role := role |})
            {| login_user_id := reg_insertId re; login_name := name;
               login_email := email; login_role := role |} |}, d') /\
  (forall other,
     bcrypt_compare other (bcrypt_hash (reg_salt re) password) = false ->
     post_api_auth_login bcrypt_compare jwt_sign now
       {| Login.email := Some email; Login.password := Some other |} d'
     = (invalid_credentials, d')).
Proof.
  intros En Ee Ep Nn Ne Np T K C d' role.
  subst d' role.
  rewrite (register_eq re b d name email password En Ee Ep Nn Ne Np), T, K.
  cbn [snd]. unfold post_api_auth_login, select_User_by_email.
  cbn [Login.email Login.password with_User db_User].
  rewrite (select_User_by_email_fresh email (db_User d)
             (registered_row re name email
                (or_else (Register.role b) "operator")
                (bcrypt_hash (reg_salt re) password)) T eq_refl).
  cbn [registered_row User.password_hash User.user_id User.email User.role
       User.name].
  split.
  - now rewrite C.
  - intros other Co. now rewrite Co.
Qed.

(** X8. The token of a login opens the protected routes: when a login is
    answered 200 with a token that [jwt.verify] accepts for a user, and the
    token has no space in it, a request carrying [Bearer <token>] runs the
    route's handler for that user. *)
Theorem login_token_authenticates {B : Type} (now : Z) (b : Login.body)
    (d d1 : db) (message token : string) (account : login_user)
    (user : jwt_user) (handler : jwt_user -> B -> db -> response * db)
    (x : B) :
  fst (post_api_auth_login bcrypt_compare jwt_sign now b d)
  = {| auth_status := 200;
       auth_payload := auth_logged_in message token account |} ->
  jwt_verify token = Some user ->
  has_char " " token = false -> token <> EmptyString ->
  authenticated jwt_verify handler
    {| authorization := Some ("Bearer " ++ token)%string; body := x |} d1
  = handler user x d1 /\
  exists row rest,
    select_User_by_email (Login.email b) d = row :: rest /\
    token = jwt_sign now {| user_id := User.user_id row;
                            email := User.email row;
                            role := User.role row |}.
Proof.
  intros L V Hs Hn. split.
  - assert (T : bearer_token (Some ("Bearer " ++ token)%string) = Some token).
    { apply (bearer_token_of_header "Bearer" token); auto. }
    unfold authenticated. rewrite authenticateToken_eq.
    cbn [authorization body]. now rewrite T, V.
  - unfold post_api_auth_login in L.
    destruct (select_User_by_email (Login.email b) d) as [|row rest];
      [discriminate|].
    destruct (Login.password b) as [password|]; [|discriminate].
    destruct (bcrypt_compare password (User.password_hash row)); [|discriminate].
    cbn [fst] in L. injection L as _ Et _. exists row, rest. split; congruence.
Qed.

End AccountProperties.

Lemma register_refusals_witness :
  post_api_auth_register sample_hash sample_register_env
    {| Register.name := Some "New Plant"%string; Register.email := None;
       Register.password := Some "secret"%string; Register.role := None |}
    sample_db = (all_fields_required, sample_db) /\
  post_api_auth_register sample_hash sample_register_env
    {| Register.name := Some "Other"%string;
       Register.email := Some "demo@industry.com"%string;
       Register.password := Some "secret"%string; Register.role := None |}
    sample_db = (email_already_registered, sample_db).
Proof.
  split.
  - apply (register_refusals sample_hash). reflexivity.
  - apply (register_refusals sample_hash) with (em := "demo@industry.com"%string);
      reflexivity.
Defined.

Lemma register_creates_account_witness :
  exists d',
    post_api_auth_register sample_hash sample_register_env plant_registration
      sample_db
    = ({| auth_status := 201;
          auth_payload := auth_registered "Registration successful"%string 4 |}, d') /\
    length (db_User d') = 4%nat.
Proof.
  destruct (register_creates_account sample_hash sample_register_env
              plant_registration sample_db "New Plant"%string "new@plant.com"%string "secret"%string)
    as (d' & E & U & _); try reflexivity; try discriminate.
  exists d'. split; [exact E|]. now rewrite U.
Defined.

Lemma login_refusals_witness :
  fst (post_api_auth_login sample_compare sample_sign 0
         {| Login.email := Some "nobody@nowhere.com"%string;
            Login.password := Some "secret"%string |} sample_registered)
  = invalid_credentials /\
  fst (post_api_auth_login sample_compare sample_sign 0
         {| Login.email := Some "new@plant.com"%string;
            Login.password := Some "guess"%string |} sample_registered)
  = invalid_credentials.
Proof.
  split.
  - apply (login_refusals sample_compare sample_sign). reflexivity.
  - eapply (login_refusals sample_compare sample_sign); reflexivity.
Defined.

Lemma register_then_login_witness :
  auth_status
    (fst (post_api_auth_login sample_compare sample_sign 0 plant_login
            sample_registered)) = 200%Z.
Proof.
  pose proof (register_then_login sample_hash sample_compare sample_sign
                sample_register_env plant_registration sample_db
                "New Plant"%string "new@plant.com"%string "secret"%string 0
                eq_refl eq_refl eq_refl ltac:(discriminate) ltac:(discriminate)
                ltac:(discriminate) eq_refl eq_refl eq_refl) as [E _].
  unfold plant_login, sample_registered. now rewrite E.
Defined.

Lemma login_token_authenticates_witness :
  authenticated plant_verify get_api_dashboard_stats
    {| authorization := Some "Bearer token-4"%string; body := tt |}
    sample_registered
  = get_api_dashboard_stats plant_user tt sample_registered.
Proof.
  apply (login_token_authenticates sample_compare sample_sign plant_verify 0
           plant_login sample_registered sample_registered "Login successful"%string
           "token-4"%string
           {| login_user_id := 4; login_name := "New Plant"%string;
              login_email := "new@plant.com"%string; login_role := "operator"%string |}
           plant_user get_api_dashboard_stats tt);
    try reflexivity; discriminate.
Defined.

(** ** Alert references *)


Lemma sensors_of_In sid d s :
  sensors_of sid d = [s] -> In s (db_Sensor d) /\ Sensor.sensor_id s = sid.
Proof.
  intro H. assert (I : In s (sensors_of sid d)) by (rewrite H; now left).
  unfold sensors_of in I. apply filter_In in I as [I E].
  apply String.eqb_eq in E. auto.
Qed.




(** ** What one reading does to the dashboard *)

Lemma flat_map_ext_in {A B} (f g : A -> list B) l :
  (forall a, In a l -> f a = g a) -> flat_map f l = flat_map g l.
Proof.
  induction l as [|a l IH]; intro H; simpl; [reflexivity|].
  rewrite (H a) by now left. rewrite IH; [reflexivity|].
  intros; apply H; now right.
Qed.

Lemma filter_none {A} (p : A -> bool) l :
  (forall a, In a l -> p a = false) -> filter p l = [].
Proof.
  induction l as [|a l IH]; intro H; simpl; [reflexivity|].
  rewrite (H a) by now left. apply IH. intros; apply H; now right.
Qed.

Lemma filter_snoc_out {A} (p : A -> bool) l x :
  p x = false -> filter p (l ++ [x]) = filter p l.
Proof. intro H. rewrite filter_app. simpl. rewrite H. apply app_nil_r. Qed.

Lemma filter_and {A} (p q : A -> bool) l :
  filter (fun a => p a && q a) l = filter q (filter p l).
Proof.
  induction l as [|a l IH]; simpl; [reflexivity|].
  destruct (p a); simpl; [|exact IH]. destruct (q a); now rewrite IH.
Qed.





Section OneMoreReading.

Variables (e : env) (d : db) (NEW : Emission_Data.row) (s : Sensor.row)
          (uid : Z).
Hypothesis Hinv : store_inv d.
Hypothesis Hid : has_Emission_Data (Emission_Data.emission_id NEW) d = false.
Hypothesis Hs : sensors_of (Emission_Data.sensor_id NEW) d = [s].

Lemma links_name_readings cem :
  In cem (db_Credit_Emission_Map d) ->
  String.eqb (Credit_Emission_Map.emission_id cem)
             (Emission_Data.emission_id NEW) = false.
Proof.
  intro I. destruct Hinv as [_ Lk _ _].
  assert (X : exists c, credit_linked d c cem).
  { clear - Lk I. induction Lk as [|c m cs ms Hcm _ IH]; [contradiction|].
    destruct I as [<- | I]; [now exists c | auto]. }
  destruct X as (c & _ & _ & _ & r & Ir & Er & _).
  apply String.eqb_neq. intro E.
  assert (T : has_Emission_Data (Emission_Data.emission_id NEW) d = true).
  { unfold has_Emission_Data. apply existsb_exists. exists r.
    split; [exact Ir|]. apply String.eqb_eq. congruence. }
  congruence.
Qed.

Lemma old_links_see_no_new_reading (NEW' : Emission_Data.row) cem :
  Emission_Data.emission_id NEW' = Emission_Data.emission_id NEW ->
  In cem (db_Credit_Emission_Map d) ->
  filter (fun ed => String.eqb (Credit_Emission_Map.emission_id cem)
                               (Emission_Data.emission_id ed))
         (db_Emission_Data d ++ [NEW'])
  = filter (fun ed => String.eqb (Credit_Emission_Map.emission_id cem)
                                 (Emission_Data.emission_id ed))
           (db_Emission_Data d).
Proof.
  intros E I. apply filter_snoc_out. rewrite E. now apply links_name_readings.
Qed.

Lemma credits_of_user_breach owner :
  credits_of_user uid (breach_outcome e NEW owner d) = credits_of_user uid d.
Proof.
  unfold credits_of_user.
  cbn [breach_outcome db_Carbon_Credit db_Credit_Emission_Map db_Emission_Data
       db_Sensor].
  apply flat_map_ext_in. intros cc _.
  apply flat_map_ext_in. intros cem Icem. apply filter_In in Icem as [Icem _].
  now rewrite (old_links_see_no_new_reading
                 (set_alert_id (alert_id_at e) NEW) cem eq_refl Icem).
Qed.

Hypothesis Hc : has_Carbon_Credit (credit_id_at e) d = false.

Lemma credits_of_user_compliant :
  credits_of_user uid (compliant_outcome e NEW d)
  = credits_of_user uid d ++
    if (Sensor.user_id s =? uid)%Z
    then [(credit_row_at e (Emission_Data.co2_value NEW) v_threshold,
           map_row_at e (Emission_Data.emission_id NEW), NEW, s)]
    else [].
Proof.
  pose proof Hinv as [K Lk _ _].
  assert (Hfresh := existsb_eqb_false _ _ _ Hc).
  unfold credits_of_user.
  cbn [compliant_outcome db_Carbon_Credit db_Credit_Emission_Map
       db_Emission_Data db_Sensor].
  rewrite flat_map_app. f_equal.
  - apply flat_map_ext_in. intros cc Icc.
    rewrite filter_snoc_out.
    + apply flat_map_ext_in. intros cem Icem.
      apply filter_In in Icem as [Icem _].
      now rewrite (old_links_see_no_new_reading NEW cem eq_refl Icem).
    + cbn [map_row_at Credit_Emission_Map.credit_id].
      apply String.eqb_neq. intro E. apply Hfresh. rewrite <- E.
      now apply in_map.
  - cbn [flat_map]. rewrite app_nil_r.
    rewrite filter_app.
    change (Carbon_Credit.credit_id
              (credit_row_at e (Emission_Data.co2_value NEW) v_threshold))
      with (credit_id_at e).
    rewrite (lockstep_no_link (credit_linked d) (fun c m H => proj1 H)
               _ _ _ Lk Hfresh).
    cbn [map_row_at Credit_Emission_Map.credit_id
         Credit_Emission_Map.emission_id filter app].
    rewrite String.eqb_refl. cbn [flat_map]. rewrite app_nil_r.
    rewrite filter_app.
    rewrite (filter_none _ (db_Emission_Data d)).
    2:{ intros r Ir. apply String.eqb_neq. intro E.
        assert (T : has_Emission_Data (Emission_Data.emission_id NEW) d = true).
        { unfold has_Emission_Data. apply existsb_exists. exists r.
          split; [exact Ir|]. apply String.eqb_eq. symmetry. exact E. }
        congruence. }
    cbn [filter app]. rewrite String.eqb_refl. cbn [flat_map].
    rewrite app_nil_r, filter_and. fold (sensors_of (Emission_Data.sensor_id NEW) d).
    rewrite Hs. cbn [filter]. destruct (Sensor.user_id s =? uid)%Z; reflexivity.
Qed.

End OneMoreReading.

Lemma stat_total_credits_eq uid d :
  stat_total_credits (dashboard uid d)
  == Qsum (map (fun r => Carbon_Credit.credit_amount (fst (fst (fst r))))
               (credits_of_user uid d)).
Proof.
  unfold dashboard, get_api_dashboard_stats, stat_total_credits.
  cbn [fst payload user_id]. now rewrite or_zero_eq, COALESCE_SUM.
Qed.

(** X11. In a store reached by insertions and registrations from one where
    nothing was derived, a reading that is accepted changes the total of
    credits of the dashboard for one user at most: when its [co2_value]
    does not exceed 1000 the total of the owner of its sensor grows by
    [(1000 - co2_value) / 1000], and every other total, and every total
    when the value exceeds 1000, stays as it was. *)
Theorem reading_moves_total_credits (e : env) (d d' : db) (id : string)
    (ts : Z) (co2 : Q) (pm tp hu : option Q) (sid : string) :
  reachable d ->
  insert_Emission_Data e id ts (Some co2) pm tp hu (Some sid) d = Some (tt, d') ->
  exists s,
    In s (db_Sensor d) /\ Sensor.sensor_id s = sid /\
    forall uid,
      stat_total_credits (dashboard uid d')
      == stat_total_credits (dashboard uid d)
         + if Qle_bool co2 1000 && (Sensor.user_id s =? uid)%Z
           then (1000 - co2) / 1000 else 0.
Proof.
  intros R H. apply reachable_store_inv in R.
  apply insert_Emission_Data_inv in H.
  destruct H as (v & sn & s & Ev & Es & Hid & Hs & H).
  injection Ev as <-. injection Es as <-.
  destruct (sensors_of_In _ _ _ Hs) as [Is Es]. exists s.
  split; [exact Is|]. split; [exact Es|]. intro uid.
  rewrite !stat_total_credits_eq. unfold v_threshold in H.
  destruct H as [(Hle & Hc & _ & ->) | (Hlt & _ & _ & ->)].
  - rewrite (credits_of_user_compliant e d (new_row id ts co2 pm tp hu sid) s
               uid R Hid Hs Hc).
    rewrite map_app, Qsum_app. apply Qle_bool_iff in Hle. rewrite Hle.
    cbn [andb]. destruct (Sensor.user_id s =? uid)%Z; simpl.
    + unfold v_threshold. ring.
    + ring.
  - rewrite (credits_of_user_breach e d (new_row id ts co2 pm tp hu sid) uid
               R Hid).
    assert (F : Qle_bool co2 1000 = false).
    { destruct (Qle_bool co2 1000) eqn:E; [|reflexivity].
      apply Qle_bool_iff in E. lra. }
    rewrite F. cbn [andb]. ring.
Qed.

Lemma reading_moves_total_credits_witness :
  stat_total_credits (dashboard 1 (submit sample_850 sample_db))
  == (1000 - 850) / 1000 /\
  stat_total_credits (dashboard 2 (submit sample_850 sample_db)) == 0.
Proof.
  destruct (reading_moves_total_credits sample_env sample_db
              (submit sample_850 sample_db) "EM_2024060101" 20240601080000
              850 (Some (352 # 10)) (Some (285 # 10)) (Some 65) "SENSOR_001")
    as (s & Is & Es & H).
  - apply reachable_initial. repeat split.
  - reflexivity.
  - assert (Eu : Sensor.user_id s = 1%Z).
    { vm_compute in Is.
      destruct Is as [<- | [<- | [<- | [<- | []]]]]; vm_compute in Es;
        try reflexivity; discriminate. }
    split.
    + rewrite (H 1%Z), Eu. reflexivity.
    + rewrite (H 2%Z), Eu. reflexivity.
Defined.

(** ** The view [v_realtime_emissions] *)


Section RealtimeProperties.

Variable DATE_SUB_24_HOUR : Z -> Z.


End RealtimeProperties.


(** ** Reports *)

Lemma generate_report_eq e uid type a c r :
  generate_report e uid type a c r =
    if has_Report (report_id_at e uid) r then (r, None)
    else if negb (has_User uid (base r)) then (r, None)
    else
      let r1 := mkreports (base r)
                  (db_Report r ++ [report_row_at e uid type a c (base r)])
                  (db_User_Report_Access r) in
      if has_User_Report_Access (access_id_at e uid) r then (r1, None)
      else (mkreports (base r)
              (db_Report r ++ [report_row_at e uid type a c (base r)])
              (db_User_Report_Access r ++ [access_row_at e uid]),
            Some (report_id_at e uid)).
Proof.
  unfold generate_report. fold (report_id_at e uid). fold (access_id_at e uid).
  fold (report_row_at e uid type a c (base r)).
  unfold insert_Report. cbn [report_row_at Report.report_id Report.user_id].
  destruct (has_Report (report_id_at e uid) r) eqn:HR; [reflexivity|].
  destruct (has_User uid (base r)) eqn:HU; cbn [negb]; [|reflexivity].
  unfold insert_User_Report_Access.
  unfold has_User_Report_Access at 1. cbn [db_User_Report_Access base].
  fold (has_User_Report_Access (access_id_at e uid) r).
  destruct (has_User_Report_Access (access_id_at e uid) r); [reflexivity|].
  rewrite HU. cbn [negb]. unfold has_Report. cbn [db_Report].
  rewrite existsb_snoc. cbn [Report.report_id].
  rewrite String.eqb_refl, orb_true_r. reflexivity.
Qed.

Lemma between_empty x a c : (c < a)%Z -> BETWEEN x a c = false.
Proof.
  intro H. unfold BETWEEN.
  destruct (Z.leb_spec a x), (Z.leb_spec x c); simpl; try reflexivity. lia.
Qed.

(** X13. Called for a user that exists, when no report and no access row
    carry the identifiers it generates, [generate_report] returns the
    report identifier and adds exactly one row to [Report], holding the
    period and the two totals with 0 in place of a missing sum, and exactly
    one row to [User_Report_Access], which makes that user the owner of
    that report; the other tables are not touched. For a period that ends
    before it starts both totals are 0. *)
Theorem generate_report_writes (e : env) (uid : Z) (type : string) (a c : Z)
    (r : report_db) :
  has_User uid (base r) = true ->
  has_Report (report_id_at e uid) r = false ->
  has_User_Report_Access (access_id_at e uid) r = false ->
  exists rep acc r',
    generate_report e uid type a c r = (r', Some (report_id_at e uid)) /\
    base r' = base r /\
    db_Report r' = db_Report r ++ [rep] /\
    db_User_Report_Access r' = db_User_Report_Access r ++ [acc] /\
    Report.report_id rep = report_id_at e uid /\
    Report.user_id rep = uid /\
    Report.period_start rep = a /\ Report.period_end rep = c /\
    Report.total_emission rep
    = Some (COALESCE (select_total_emission uid a c (base r)) 0) /\
    Report.total_credits rep
    = Some (COALESCE (select_total_credits uid a c (base r)) 0) /\
    report_owned rep acc /\
    ((c < a)%Z ->
     Report.total_emission rep = Some 0 /\ Report.total_credits rep = Some 0).
Proof.
  intros HU HR HA.
  exists (report_row_at e uid type a c (base r)), (access_row_at e uid).
  eexists. split.
  { rewrite generate_report_eq, HR, HU. cbn [negb]. rewrite HA. reflexivity. }
  cbn [base db_Report db_User_Report_Access report_row_at Report.report_id
       Report.user_id Report.period_start Report.period_end
       Report.total_emission Report.total_credits].
  repeat (split; [reflexivity|]).
  split; [repeat split|].
  intro Hca. unfold select_total_emission, select_total_credits.
  rewrite !filter_none; [split; reflexivity | |];
    intros x _; now apply between_empty.
Qed.

Lemma generate_report_writes_witness :
  exists rep r',
    generate_report report_env 1 "monthly" 20240601 20240630 sample_reports
    = (r', Some "RPT_20240701000000_1"%string) /\
    db_Report r' = [rep] /\
    Report.total_emission rep
    = Some (COALESCE (select_total_emission 1 20240601 20240630 sample_both) 0).
Proof.
  destruct (generate_report_writes report_env 1 "monthly" 20240601 20240630
              sample_reports eq_refl eq_refl eq_refl)
    as (rep & acc & r' & E & _ & R & _ & _ & _ & _ & _ & T & _).
  exists rep, r'. repeat split; assumption.
Defined.

(** X14. [generate_report] writes nothing and returns no identifier when
    the user does not exist, and when a report with the identifier it
    generates exists already; as the identifier is made of the second of
    the call and of the user, a second call for the same user within the
    same second is refused whatever its type and period. *)
Theorem generate_report_refusals (e : env) (uid : Z) (type : string) (a c : Z)
    (r : report_db) :
  (has_User uid (base r) = false ->
   generate_report e uid type a c r = (r, None)) /\
  (has_Report (report_id_at e uid) r = true ->
   generate_report e uid type a c r = (r, None)) /\
  (forall r' id e' type' a' c',
     generate_report e uid type a c r = (r', Some id) ->
     NOW e' = NOW e ->
     generate_report e' uid type' a' c' r' = (r', None)).
Proof.
  split; [|split].
  - intro HU. rewrite generate_report_eq, HU.
    now destruct (has_Report (report_id_at e uid) r).
  - intro HR. now rewrite generate_report_eq, HR.
  - intros r' id e' type' a' c' G En.
    rewrite generate_report_eq in G.
    destruct (has_Report (report_id_at e uid) r); [discriminate|].
    destruct (has_User uid (base r)); [|discriminate]. cbn [negb] in G.
    destruct (has_User_Report_Access (access_id_at e uid) r); [discriminate|].
    injection G as <- _.
    rewrite generate_report_eq.
    assert (T : has_Report (report_id_at e' uid)
                  (mkreports (base r)
                     (db_Report r ++ [report_row_at e uid type a c (base r)])
                     (db_User_Report_Access r ++ [access_row_at e uid])) = true).
    { unfold has_Report. cbn [db_Report]. rewrite existsb_snoc.
      cbn [report_row_at Report.report_id]. unfold report_id_at.
      rewrite En, String.eqb_refl. apply orb_true_r. }
    now rewrite T.
Qed.

Lemma generate_report_refusals_witness :
  generate_report report_env 9 "monthly" 20240601 20240630 sample_reports
  = (sample_reports, None) /\
  generate_report {| NOW := 20240701000000; RAND := 1 # 2 |} 1 "yearly"
    20240101 20241231
    (fst (generate_report report_env 1 "monthly" 20240601 20240630
            sample_reports))
  = (fst (generate_report report_env 1 "monthly" 20240601 20240630
            sample_reports), None).
Proof.
  split.
  - destruct (generate_report_refusals report_env 9 "monthly" 20240601 20240630
                sample_reports) as (H & _ & _).
    apply H. reflexivity.
  - destruct (generate_report_refusals report_env 1 "monthly" 20240601 20240630
                sample_reports) as (_ & _ & H).
    apply H with (id := "RPT_20240701000000_1"%string); reflexivity.
Defined.

Section Pairing.

Context {A B : Type}.
Variables (ka : A -> string) (kb : B -> string) (R : A -> B -> Prop).
Hypothesis R_key : forall a b, R a b -> kb b = ka a.

Lemma paired_none x la lb :
  Forall2 R la lb -> ~ In x (map ka la) ->
  filter (fun b => String.eqb (kb b) x) lb = [].
Proof.
  induction 1 as [|a b la lb Hab _ IH]; simpl; [reflexivity|].
  intro Hn. rewrite (R_key _ _ Hab).
  destruct (String.eqb_spec (ka a) x) as [E | N].
  - exfalso. apply Hn. now left.
  - apply IH. tauto.
Qed.

Lemma paired_one a la lb :
  Forall2 R la lb -> NoDup (map ka la) -> In a la ->
  exists b, filter (fun b => String.eqb (kb b) (ka a)) lb = [b] /\ R a b.
Proof.
  induction 1 as [|a0 b0 la lb Hab F IH]; simpl; [tauto|].
  intros Hnd Hin. apply NoDup_cons_iff in Hnd as [Hn Hnd].
  rewrite (R_key _ _ Hab).
  destruct Hin as [<- | Hin].
  - rewrite String.eqb_refl. exists b0.
    now rewrite (paired_none _ _ _ F Hn).
  - destruct (String.eqb_spec (ka a0) (ka a)) as [E | N].
    + exfalso. apply Hn. rewrite E. now apply in_map.
    + now apply IH.
Qed.

End Pairing.

Lemma append_empty_r s : (s ++ "")%string = s.
Proof. induction s as [|c s IH]; simpl; [reflexivity | now rewrite IH]. Qed.

Lemma access_id_injective x y :
  CONCAT ["ACCESS_"%string; x] = CONCAT ["ACCESS_"%string; y] -> x = y.
Proof.
  unfold CONCAT. simpl. rewrite !append_empty_r. now intros [= ->].
Qed.

Lemma report_owned_access_fresh reps accs aid rid :
  Forall2 report_owned reps accs ->
  aid = CONCAT ["ACCESS_"%string; rid] ->
  existsb (fun x => String.eqb (Report.report_id x) rid) reps = false ->
  existsb (fun x => String.eqb (User_Report_Access.access_id x) aid) accs = false.
Proof.
  intros F -> Hr. induction F as [|rep acc reps accs (_ & E & _) _ IH]; simpl in *;
    [reflexivity|].
  apply orb_false_iff in Hr as [H1 H2]. rewrite (IH H2), orb_false_r.
  apply String.eqb_neq. intro X. rewrite E in X.
  apply access_id_injective in X. apply String.eqb_neq in H1. contradiction.
Qed.

Lemma report_inv_reachable r :
  report_reachable r ->
  NoDup (map Report.report_id (db_Report r)) /\
  Forall2 report_owned (db_Report r) (db_User_Report_Access r).
Proof.
  induction 1 as [r Hr Ha | r r' _ [ND F] S].
  - rewrite Hr, Ha. split; constructor.
  - destruct S as [e uid type a c r | r d' _]; [|now split].
    rewrite generate_report_eq.
    destruct (has_Report (report_id_at e uid) r) eqn:HR; [now split|].
    destruct (has_User uid (base r)); cbn [negb]; [|now split].
    assert (HA : has_User_Report_Access (access_id_at e uid) r = false).
    { unfold has_User_Report_Access.
      eapply report_owned_access_fresh; [exact F | reflexivity | exact HR]. }
    rewrite HA. cbv zeta. cbn [fst db_Report db_User_Report_Access]. split.
    + rewrite map_app. apply NoDup_app; [exact ND | |].
      * repeat constructor. intros [].
      * intros x Hx [<- | []]. apply existsb_eqb_false in HR. now apply HR.
    + apply Forall2_app; [exact F|]. constructor; [|constructor].
      repeat split.
Qed.

(** X15. In every store reached by calls of [generate_report] and by the
    writes to the other tables from one without reports, every report has
    exactly one row of [User_Report_Access] naming it: it carries the
    identifier ['ACCESS_' + report_id] and makes the report's user its
    owner. No call leaves a report without its owner, and report
    identifiers are unique. *)
Theorem every_report_has_its_owner (r : report_db) :
  report_reachable r ->
  NoDup (map Report.report_id (db_Report r)) /\
  forall rep, In rep (db_Report r) ->
    exists acc, accesses_of rep r = [acc] /\ report_owned rep acc.
Proof.
  intro H. destruct (report_inv_reachable r H) as [ND F].
  split; [exact ND|]. intros rep I.
  apply (paired_one Report.report_id User_Report_Access.report_id report_owned
           (fun a b H => proj1 H) rep _ _ F ND I).
Qed.

Lemma every_report_has_its_owner_witness :
  exists acc,
    accesses_of (report_row_at report_env 1 "monthly" 20240601 20240630
                   sample_both)
      (fst (generate_report report_env 1 "monthly" 20240601 20240630
              sample_reports)) = [acc] /\
    User_Report_Access.user_id acc = 1%Z.
Proof.
  destruct (every_report_has_its_owner
              (fst (generate_report report_env 1 "monthly" 20240601 20240630
                      sample_reports))) as [_ H].
  - eapply report_reachable_step; [|apply report_step_generate].
    now apply report_reachable_initial.
  - destruct (H (report_row_at report_env 1 "monthly" 20240601 20240630
                   sample_both)) as (acc & E & _ & _ & U & _).
    + vm_compute. left. reflexivity.
    + exists acc. split; [exact E | exact U].
Defined.

(** ** The totals of a report *)

Lemma between_split x a b b' c :
  (b < b')%Z -> (a <= b')%Z -> (b <= c)%Z -> ~ (b < x < b')%Z ->
  (BETWEEN x a c = BETWEEN x a b || BETWEEN x b' c) /\
  (BETWEEN x a b && BETWEEN x b' c = false).
Proof.
  intros H1 H2 H3 H4. unfold BETWEEN.
  destruct (Z.leb_spec a x), (Z.leb_spec x c), (Z.leb_spec x b),
           (Z.leb_spec b' x); simpl; split; try reflexivity; lia.
Qed.

Lemma Qsum_filter_split {A} (f : A -> Q) (p q pq : A -> bool) l :
  (forall x, In x l -> pq x = p x || q x /\ p x && q x = false) ->
  Qsum (map f (filter pq l))
  == Qsum (map f (filter p l)) + Qsum (map f (filter q l)).
Proof.
  induction l as [|x l IH]; intro H; simpl; [ring|].
  destruct (H x (or_introl eq_refl)) as [H1 H2]. rewrite H1.
  assert (IH' := IH (fun y Hy => H y (or_intror Hy))).
  destruct (p x), (q x); simpl in *; try discriminate;
    fold (Qsum (map f (filter pq l))); fold (Qsum (map f (filter p l)));
    fold (Qsum (map f (filter q l))); rewrite IH'; ring.
Qed.

Lemma in_emissions_of_user_reading uid d row :
  In row (emissions_of_user uid d) -> In (fst row) (db_Emission_Data d).
Proof.
  destruct row as [ed s]. intro H.
  now apply in_emissions_of_user in H as (H & _).
Qed.

Lemma in_credits_of_user uid d row :
  In row (credits_of_user uid d) -> In (fst (fst (fst row))) (db_Carbon_Credit d).
Proof.
  unfold credits_of_user. intro H.
  apply in_flat_map in H as (cc & Icc & H).
  apply in_flat_map in H as (cem & _ & H).
  apply in_flat_map in H as (ed & _ & H).
  apply in_map_iff in H as (s & <- & _). exact Icc.
Qed.

(** X16. The totals of reports add up over periods that follow each other.
    Let a period from [a] to [b] be followed by one from [b'] to [c], with
    [b < b'], no reading and no credit dated between [b] and [b'], [a] not
    after [b'] and [b] not after [c]: the total emission and the total of
    credits that [generate_report] stores for the period from [a] to [c]
    are the sums of those it stores for the two periods. *)
Theorem report_totals_add_up (uid a b b' c : Z) (d : db) :
  (b < b')%Z -> (a <= b')%Z -> (b <= c)%Z ->
  (forall ed, In ed (db_Emission_Data d) ->
     ~ (b < DATE (Emission_Data.timestamp ed) < b')%Z) ->
  (forall cc, In cc (db_Carbon_Credit d) ->
     ~ (b < Carbon_Credit.calculated_date cc < b')%Z) ->
  COALESCE (select_total_emission uid a c d) 0
  == COALESCE (select_total_emission uid a b d) 0
     + COALESCE (select_total_emission uid b' c d) 0 /\
  COALESCE (select_total_credits uid a c d) 0
  == COALESCE (select_total_credits uid a b d) 0
     + COALESCE (select_total_credits uid b' c d) 0.
Proof.
  intros H1 H2 H3 He Hc. unfold select_total_emission, select_total_credits.
  rewrite !COALESCE_SUM. split.
  - apply Qsum_filter_split. intros x Hx. apply between_split; try assumption.
    apply He. now apply in_emissions_of_user_reading in Hx.
  - apply Qsum_filter_split. intros x Hx. apply between_split; try assumption.
    apply Hc. now apply in_credits_of_user in Hx.
Qed.

Lemma report_totals_add_up_witness :
  COALESCE (select_total_emission 1 20240601 20240731 sample_both) 0
  == COALESCE (select_total_emission 1 20240601 20240630 sample_both) 0
     + COALESCE (select_total_emission 1 20240701 20240731 sample_both) 0.
Proof.
  apply (report_totals_add_up 1 20240601 20240630 20240701 20240731 sample_both);
    try lia.
  - intros ed H. vm_compute in H.
    destruct H as [<- | [<- | []]]; vm_compute; intros [X Y];
      discriminate.
  - intros cc H. vm_compute in H.
    destruct H as [<- | []]; vm_compute; intros [X Y]; discriminate.
Defined.

Lemma Qsum_nonneg l : Forall (fun x => 0 <= x) l -> 0 <= Qsum l.
Proof.
  induction 1 as [|x l H _ IH]; simpl; [lra|]. fold (Qsum l). lra.
Qed.

(** X17. In a store built by the trigger the total of credits of a report
    is never negative, and for a period that covers the calculation date of
    every credit it is the total of credits the dashboard shows to that
    user. *)
Theorem report_total_credits_of_trigger (uid a c : Z) (d : db) :
  reachable d ->
  0 <= COALESCE (select_total_credits uid a c d) 0 /\
  ((forall cc, In cc (db_Carbon_Credit d) ->
      (a <= Carbon_Credit.calculated_date cc <= c)%Z) ->
   COALESCE (select_total_credits uid a c d) 0
   == stat_total_credits (dashboard uid d)).
Proof.
  intro R. destruct (reachable_store_inv d R) as [_ _ C _].
  rewrite Forall_forall in C.
  unfold select_total_credits. rewrite COALESCE_SUM. split.
  - apply Qsum_nonneg. apply Forall_forall. intros x Hx.
    apply in_map_iff in Hx as (row & <- & Hrow).
    apply filter_In in Hrow as [Hrow _].
    apply in_credits_of_user in Hrow. now apply C.
  - intro Hall. rewrite stat_total_credits_eq.
    assert (E : filter (fun r => BETWEEN (Carbon_Credit.calculated_date
                                            (fst (fst (fst r)))) a c)
                  (credits_of_user uid d) = credits_of_user uid d).
    { apply forallb_filter_id. apply forallb_forall. intros row Hrow.
      apply in_credits_of_user in Hrow. specialize (Hall _ Hrow).
      unfold BETWEEN. apply andb_true_iff. split; apply Z.leb_le; lia. }
    now rewrite E.
Qed.

Lemma report_total_credits_of_trigger_witness :
  COALESCE (select_total_credits 1 20240601 20240630 sample_both) 0
  == stat_total_credits (dashboard 1 sample_both).
Proof.
  apply (report_total_credits_of_trigger 1 20240601 20240630 sample_both
           sample_both_reachable).
  intros cc Hcc. vm_compute in Hcc. destruct Hcc as [<- | []].
  vm_compute. split; discriminate.
Defined.

(** ** The view [v_credit_summary] *)

Lemma key_eqb_eq a b : key_eqb a b = true <-> a = b.
Proof.
  destruct a as [[a1 a2] a3], b as [[b1 b2] b3]. unfold key_eqb. cbn [fst snd].
  rewrite !andb_true_iff, Z.eqb_eq, !String.eqb_eq.
  split; [intros [[-> ->] ->]; reflexivity | intros [= -> -> ->]; auto].
Qed.

Lemma distinct_incl l k : In k (distinct l) -> In k l.
Proof.
  revert k. induction l as [|x l IH]; intros k; simpl; [tauto|].
  intros [-> | H]; [now left|]. apply filter_In in H as [H _]. right. auto.
Qed.

Lemma distinct_NoDup l : NoDup (distinct l).
Proof.
  induction l as [|x l IH]; simpl; constructor.
  - intro H. apply filter_In in H as [_ H].
    assert (E : key_eqb x x = true) by now apply key_eqb_eq.
    rewrite E in H. discriminate.
  - now apply NoDup_filter.
Qed.

Lemma SUM_Qsum l : l <> [] -> SUM l = Some (Qsum l).
Proof. destruct l; [congruence | reflexivity]. Qed.

Lemma in_credit_join d row :
  In row (credit_join d) -> In (joined_credit row) (db_Carbon_Credit d).
Proof.
  unfold credit_join. intro H.
  apply in_flat_map in H as (cc & Icc & H).
  apply in_flat_map in H as (cem & _ & H).
  apply in_flat_map in H as (ed & _ & H).
  apply in_flat_map in H as (s & _ & H).
  apply in_map_iff in H as (u & <- & _). exact Icc.
Qed.

Lemma summary_balance (group : list Carbon_Credit.row) :
  Forall (fun c => Carbon_Credit.status c
                   = status_of (Carbon_Credit.credit_amount c)) group ->
  Qsum (map Carbon_Credit.credit_amount group)
  == Qsum (map (fun c => if is_earned c then Carbon_Credit.credit_amount c
                         else 0) group)
     - Qsum (map (fun c => if is_deficit c
                           then Qabs (Carbon_Credit.credit_amount c) else 0)
                 group).
Proof.
  induction 1 as [|c l H _ IH]; simpl; [ring|].
  fold (Qsum (map Carbon_Credit.credit_amount l)).
  fold (Qsum (map (fun c => if is_earned c then Carbon_Credit.credit_amount c
                            else 0) l)).
  fold (Qsum (map (fun c => if is_deficit c
                            then Qabs (Carbon_Credit.credit_amount c) else 0) l)).
  rewrite IH. unfold is_earned, is_deficit.
  destruct (status_of_sign (Carbon_Credit.credit_amount c)) as (S1 & S2 & S3).
  rewrite <- H in S1, S2, S3.
  destruct (Carbon_Credit.status c).
  - ring.
  - rewrite Qabs_neg by (apply Qlt_le_weak; now apply S2). ring.
  - assert (E : Carbon_Credit.credit_amount c == 0) by now apply S3.
    rewrite E. ring.
Qed.

Lemma summary_no_deficit (group : list Carbon_Credit.row) :
  Forall compliant_credit group ->
  Qsum (map (fun c => if is_deficit c
                      then Qabs (Carbon_Credit.credit_amount c) else 0) group)
  == 0 /\
  0 <= Qsum (map Carbon_Credit.credit_amount group).
Proof.
  induction 1 as [|c l (A & S & _) _ [IH1 IH2]]; simpl; [split; lra|].
  fold (Qsum (map Carbon_Credit.credit_amount l)).
  fold (Qsum (map (fun c => if is_deficit c
                            then Qabs (Carbon_Credit.credit_amount c) else 0) l)).
  rewrite IH1. unfold is_deficit. split.
  - destruct S as [-> | ->]; ring.
  - lra.
Qed.

Lemma reachable_status_of_sign d :
  reachable d ->
  Forall (fun c => Carbon_Credit.status c
                   = status_of (Carbon_Credit.credit_amount c))
         (db_Carbon_Credit d).
Proof.
  induction 1 as [d (_ & Hc & _) | d d' _ IH S].
  - rewrite Hc. constructor.
  - destruct S as [e id ts co2 pm tp hu sid d d' H | e nid n em r h d id d' H].
    + apply insert_Emission_Data_inv in H.
      destruct H as (v & sn & s & _ & _ & _ & _
                     & [(_ & _ & _ & ->) | (_ & _ & _ & ->)]).
      * cbn [compliant_outcome db_Carbon_Credit]. apply Forall_app.
        split; [exact IH|]. repeat constructor.
      * exact IH.
    + unfold insert_User in H.
      destruct (existsb _ (db_User d)); [discriminate|].
      destruct (has_User nid d); [discriminate|].
      injection H as _ <-. exact IH.
Qed.

(** X18. Every row of [v_credit_summary] stands for at least one
    calculation, so that none of its three sums is [NULL], and no two rows
    are for the same user, name and month. Where every credit has the
    status that goes with the sign of its amount, as those written by
    [calculate_carbon_credits] have, the net credits of a row are its
    credits earned less its credits in deficit; in a store built by the
    trigger the credits in deficit are 0 and the net credits are not
    negative. *)
Theorem credit_summary_rows (d : db) :
  NoDup (map (fun r => (cs_user_id r, cs_company_name r, cs_month r))
             (v_credit_summary d)) /\
  forall row, In row (v_credit_summary d) ->
    (1 <= cs_total_calculations row)%nat /\
    exists earned_sum deficit_sum net,
      cs_credits_earned row = Some earned_sum /\
      cs_credits_deficit row = Some deficit_sum /\
      cs_net_credits row = Some net /\
      (Forall (fun c => Carbon_Credit.status c
                        = status_of (Carbon_Credit.credit_amount c))
              (db_Carbon_Credit d) ->
       net == earned_sum - deficit_sum) /\
      (reachable d -> deficit_sum == 0 /\ net == earned_sum /\ 0 <= net).
Proof.
  unfold v_credit_summary. split.
  - rewrite map_map. cbn [summarise cs_user_id cs_company_name cs_month].
    erewrite map_ext; [rewrite map_id; apply distinct_NoDup|].
    intros [[a b] c]. reflexivity.
  - intros row Hrow. apply in_map_iff in Hrow as (k & <- & Hk).
    apply distinct_incl in Hk. apply in_map_iff in Hk as (jr & Ek & Hjr).
    set (rows := filter (fun r => key_eqb (summary_key r) k) (credit_join d)).
    assert (Ijr : In jr rows).
    { unfold rows. apply filter_In. split; [exact Hjr|]. now apply key_eqb_eq. }
    assert (Hne : forall f : Carbon_Credit.row -> Q,
               map f (map joined_credit rows) <> []).
    { intros f E. destruct rows; [contradiction | discriminate]. }
    assert (Hin : forall c, In c (map joined_credit rows) ->
                            In c (db_Carbon_Credit d)).
    { intros c Hc. apply in_map_iff in Hc as (x & <- & Hx).
      unfold rows in Hx. apply filter_In in Hx as [Hx _].
      now apply in_credit_join. }
    cbn [summarise cs_total_calculations cs_credits_earned cs_credits_deficit
         cs_net_credits].
    split.
    { rewrite length_map. destruct rows; [contradiction | simpl; lia]. }
    eexists _, _, _.
    split; [apply SUM_Qsum, Hne|]. split; [apply SUM_Qsum, Hne|].
    split; [apply SUM_Qsum, Hne|].
    assert (Hsub : forall P, Forall P (db_Carbon_Credit d) ->
                             Forall P (map joined_credit rows)).
    { intros P F. rewrite Forall_forall in *. auto. }
    split.
    + intro F. apply summary_balance. now apply Hsub.
    + intro R.
      destruct (summary_no_deficit (map joined_credit rows)) as [D N].
      { apply Hsub. apply (inv_compliant _ (reachable_store_inv d R)). }
      split; [exact D|]. split; [|exact N].
      rewrite (summary_balance (map joined_credit rows)).
      * rewrite D. ring.
      * apply Hsub. now apply reachable_status_of_sign.
Qed.

Lemma credit_summary_rows_witness :
  exists row net,
    v_credit_summary sample_both = [row] /\
    cs_month row = "2024-06"%string /\
    cs_net_credits row = Some net /\ 0 <= net.
Proof.
  destruct (credit_summary_rows sample_both) as [_ H].
  eexists. destruct (H (hd (summarise (0%Z, ""%string, ""%string) [])
                           (v_credit_summary sample_both)))
    as (_ & es & ds & net & _ & _ & En & _ & R).
  - vm_compute. left. reflexivity.
  - exists net. split; [reflexivity|]. split; [reflexivity|].
    split; [exact En|]. now apply R, sample_both_reachable.
Defined.

(** ** The view [v_active_alerts] *)

Lemma null_eqb_sym a b : null_eqb a b = null_eqb b a.
Proof. destruct a, b; simpl; try reflexivity. apply Z.eqb_sym. Qed.

Lemma active_alert_before_total x y :
  active_alert_before x y = false -> active_alert_before y x = true.
Proof.
  unfold active_alert_before. rewrite (null_eqb_sym (Alert.created_at (fst y))).
  destruct (null_eqb _ _); apply null_leb_total.
Qed.

Lemma null_order a b :
  (null_eqb a b = true -> a = b) /\
  (null_leb a b = true -> null_leb b a = true -> a = b).
Proof.
  destruct a as [x|], b as [y|]; simpl; split; try congruence.
  - intro H. apply Z.eqb_eq in H. congruence.
  - rewrite !Z.leb_le. intros. f_equal. lia.
Qed.

Lemma null_eqb_refl a : null_eqb a a = true.
Proof. destruct a; simpl; [apply Z.eqb_refl | reflexivity]. Qed.

Lemma active_alert_before_trans x y z :
  active_alert_before x y = true -> active_alert_before y z = true ->
  active_alert_before x z = true.
Proof.
  unfold active_alert_before.
  set (cx := Alert.created_at (fst x)). set (cy := Alert.created_at (fst y)).
  set (cz := Alert.created_at (fst z)).
  set (sx := severity_index (Alert.severity (fst x))).
  set (sy := severity_index (Alert.severity (fst y))).
  set (sz := severity_index (Alert.severity (fst z))).
  destruct (null_eqb cx cy) eqn:Exy.
  - apply null_order in Exy. rewrite <- Exy.
    destruct (null_eqb cx cz) eqn:Exz; [|auto].
    intros H1 H2. eapply null_leb_trans; eauto.
  - intro H1. destruct (null_eqb cy cz) eqn:Eyz.
    + apply null_order in Eyz. rewrite <- Eyz, Exy. auto.
    + intro H2. destruct (null_eqb cx cz) eqn:Exz.
      * apply null_order in Exz. subst cz. rewrite <- Exz in H2.
        assert (E : cx = cy) by (apply null_order; assumption).
        rewrite E, null_eqb_refl in Exy. discriminate.
      * eapply null_leb_trans; eauto.
Qed.

Lemma length_filter_perm {A} (p : A -> bool) l l' :
  Permutation l l' -> length (filter p l) = length (filter p l').
Proof.
  induction 1 as [|x l l' _ IH|x y l|l l' l'' _ IH1 _ IH2]; simpl.
  - reflexivity.
  - destruct (p x); simpl; congruence.
  - destruct (p x), (p y); reflexivity.
  - congruence.
Qed.

(** X19. Every row of [v_active_alerts] pairs an unread alert with the user
    it belongs to, and the rows come by creation time, newest first, and
    among alerts created together by severity, gravest first. For a user
    with one row in [User] the view holds as many rows as the dashboard
    counts unread alerts for that user. *)
Theorem active_alerts_rows (d : db) :
  StronglySorted (fun a b => active_alert_before a b = true) (v_active_alerts d) /\
  (forall row, In row (v_active_alerts d) ->
     In (fst row) (db_Alert d) /\ In (snd row) (db_User d) /\
     Alert.is_read (fst row) = Some false /\
     Alert.user_id (fst row) = User.user_id (snd row)) /\
  (forall uid u,
     filter (fun x => (uid =? User.user_id x)%Z) (db_User d) = [u] ->
     length (filter (fun row => (Alert.user_id (fst row) =? uid)%Z)
                    (v_active_alerts d))
     = stat_unread_alerts (dashboard uid d)).
Proof.
  unfold v_active_alerts. split; [|split].
  - apply ORDER_BY_sorted.
    + apply active_alert_before_total.
    + apply active_alert_before_trans.
  - intros [a u] H.
    apply (Permutation_in _ (Permutation_sym (ORDER_BY_perm _ _))) in H.
    apply filter_In in H as [H U]. apply in_flat_map in H as (a' & Ia & H).
    apply in_map_iff in H as (u' & [= <- <-] & Iu).
    apply filter_In in Iu as [Iu E]. apply Z.eqb_eq in E.
    cbn [fst snd] in *. repeat split; try assumption.
    unfold is_unread in U. destruct (Alert.is_read a') as [[|]|];
      try discriminate; reflexivity.
  - intros uid u Hu.
    rewrite <- (length_filter_perm _ _ _ (ORDER_BY_perm active_alert_before _)).
    unfold dashboard, get_api_dashboard_stats, stat_unread_alerts.
    cbn [fst payload user_id].
    induction (db_Alert d) as [|a l IH]; [reflexivity|].
    cbn [flat_map]. rewrite !filter_app, length_app, IH. clear IH.
    cbn [filter]. destruct (Z.eqb_spec (Alert.user_id a) uid) as [E | N].
    + rewrite E, Hu. cbn [map filter fst andb].
      destruct (is_unread a); cbn [filter fst length app]; [|reflexivity].
      rewrite E, Z.eqb_refl. reflexivity.
    + cbn [andb].
      rewrite (filter_none _ (filter _ (map (pair a) _))); [reflexivity|].
      intros row Hrow. apply filter_In in Hrow as [Hrow _].
      apply in_map_iff in Hrow as (u' & <- & _). cbn [fst].
      now apply Z.eqb_neq.
Qed.

Lemma active_alerts_rows_witness :
  length (filter (fun row => (Alert.user_id (fst row) =? 1)%Z)
                 (v_active_alerts sample_both))
  = stat_unread_alerts (dashboard 1 sample_both).
Proof.
  destruct (active_alerts_rows sample_both) as (_ & _ & H).
  apply (H 1%Z (sample_User 1 "Demo Industries Ltd." "demo@industry.com" "admin")).
  reflexivity.
Defined.

(** ** The serial bridge *)

(** X20. [saveToDatabase] answers [false] and stores nothing as soon as one
    of the four fields of the line is [undefined], the temperature and the
    humidity included. Otherwise it does what [POST /api/emissions] does
    with the same fields and no [pm25_value]: it leaves the same store,
    having run the same trigger, and answers [true] exactly when the route
    would answer 201. *)
Theorem saveToDatabase_as_the_route (je : js_env) (e : env) (data : bridge_data)
    (user : jwt_user) (d : db) :
  (is_undefined (data_sensor_id data) || is_undefined (data_co2_value data)
   || is_undefined (data_temperature data) || is_undefined (data_humidity data)
   = true ->
   saveToDatabase je e data d = (false, d)) /\
  (is_undefined (data_sensor_id data) || is_undefined (data_co2_value data)
   || is_undefined (data_temperature data) || is_undefined (data_humidity data)
   = false ->
   snd (saveToDatabase je e data d)
   = snd (post_api_emissions je e user (body_of_line data) d) /\
   (fst (saveToDatabase je e data d) = true <->
    status (fst (post_api_emissions je e user (body_of_line data) d)) = 201%Z)) /\
  (fst (saveToDatabase je e data d) = true ->
   has_Emission_Data (request_emission_id je) (snd (saveToDatabase je e data d))
   = true) /\
  (fst (saveToDatabase je e data d) = false ->
   snd (saveToDatabase je e data d) = d).
Proof.
  unfold saveToDatabase, post_api_emissions, body_of_line.
  fold (request_emission_id je).
  cbn [sensor_id co2_value pm25_value temperature humidity].
  destruct (data_sensor_id data) as [| |sid], (data_co2_value data) as [| |co2],
           (data_temperature data) as [| |tp], (data_humidity data) as [| |hu];
    cbn [is_undefined bind_parameter query_value orb];
    repeat split; try reflexivity; try discriminate;
    try (destruct (insert_Emission_Data _ _ _ _ _ _ _ _ d) as [[u d']|] eqn:E;
         cbn [fst snd status]; try reflexivity; try discriminate;
         try (intros _; eapply insert_records_id; exact E)).
Qed.

Lemma saveToDatabase_as_the_route_witness :
  saveToDatabase sample_js_env sample_env line_without_humidity sample_db
  = (false, sample_db) /\
  status (fst (post_api_emissions sample_js_env sample_env demo_user
                 (body_of_line line_without_humidity) sample_db)) = 201%Z /\
  fst (saveToDatabase sample_js_env sample_env line_850 sample_db) = true.
Proof.
  split; [|split].
  - apply (saveToDatabase_as_the_route sample_js_env sample_env
             line_without_humidity demo_user sample_db). reflexivity.
  - reflexivity.
  - apply (saveToDatabase_as_the_route sample_js_env sample_env line_850
             demo_user sample_db); reflexivity.
Defined.

(** ** Identifiers that collide *)

Lemma step_keeps_rows d d' :
  step d d' ->
  (forall cid, has_Carbon_Credit cid d = true -> has_Carbon_Credit cid d' = true) /\
  (forall aid, has_Alert aid d = true -> has_Alert aid d' = true) /\
  (forall eid, has_Emission_Data eid d = true -> has_Emission_Data eid d' = true).
Proof.
  intros [e id ts co2 pm tp hu sid d0 d0' H | e nid n em r h d0 id d0' H].
  - pose proof (insert_emissions_snoc _ _ _ _ _ _ _ _ _ _ _ H) as (st & Est & _).
    apply insert_Emission_Data_inv in H.
    destruct H as (v & sn & s & _ & _ & _ & _
                   & [(_ & _ & _ & ->) | (_ & _ & _ & ->)]);
      unfold has_Carbon_Credit, has_Alert, has_Emission_Data;
      cbn [compliant_outcome breach_outcome db_Carbon_Credit db_Alert
           db_Emission_Data];
      repeat split; intros x Hx; rewrite ?existsb_snoc, Hx; reflexivity.
  - unfold insert_User in H.
    destruct (existsb _ (db_User d0)); [discriminate|].
    destruct (has_User nid d0); [discriminate|].
    injection H as _ <-. repeat split; auto.
Qed.

Lemma steps_keep_rows d d' :
  steps d d' ->
  (forall cid, has_Carbon_Credit cid d = true -> has_Carbon_Credit cid d' = true) /\
  (forall aid, has_Alert aid d = true -> has_Alert aid d' = true) /\
  (forall eid, has_Emission_Data eid d = true -> has_Emission_Data eid d' = true).
Proof.
  induction 1 as [d | d d' d'' S _ (I1 & I2 & I3)].
  - repeat split; auto.
  - destruct (step_keeps_rows _ _ S) as (S1 & S2 & S3). repeat split; auto.
Qed.




(** X22. The route [POST /api/emissions] names a reading after the
    millisecond of the request and a draw among 1000: once a request has
    been answered 201, a later request in the same millisecond with the
    same [Math.floor(Math.random() * 1000)] is answered 500 and stores
    nothing, whatever it carries. *)
Theorem post_api_emissions_same_millisecond (je je' : js_env) (e e' : env)
    (user user' : jwt_user) (b b' : emission_body) (d d2 : db) :
  status (fst (post_api_emissions je e user b d)) = 201%Z ->
  steps (snd (post_api_emissions je e user b d)) d2 ->
  Date_now je' = Date_now je ->
  Qfloor (Math_random je' * 1000) = Qfloor (Math_random je * 1000) ->
  post_api_emissions je' e' user' b' d2 = (failed_to_record, d2).
Proof.
  intros H S En Er.
  assert (Hrec : has_Emission_Data (request_emission_id je)
                   (snd (post_api_emissions je e user b d)) = true).
  { revert H. unfold post_api_emissions. fold (request_emission_id je).
    destruct (insert_Emission_Data e (request_emission_id je) (NOW e)
                (co2_value b) (pm25_value b) (temperature b) (humidity b)
                (sensor_id b) d) as [[u d']|] eqn:I; cbn [fst snd status].
    - intros _. eapply insert_records_id. exact I.
    - discriminate. }
  destruct (steps_keep_rows _ _ S) as (_ & _ & K3). apply K3 in Hrec.
  unfold post_api_emissions. fold (request_emission_id je').
  assert (E : request_emission_id je' = request_emission_id je).
  { unfold request_emission_id. now rewrite En, Er. }
  rewrite E, insert_duplicate_rejected by exact Hrec. reflexivity.
Qed.

Lemma post_api_emissions_same_millisecond_witness :
  post_api_emissions {| Date_now := 1717228800000; Math_random := 429 # 10000 |}
    sample_env demo_user body_unknown_sensor
    (snd (post_api_emissions sample_js_env sample_env demo_user body_850
            sample_db))
  = (failed_to_record,
     snd (post_api_emissions sample_js_env sample_env demo_user body_850
            sample_db)).
Proof.
  apply (post_api_emissions_same_millisecond sample_js_env
           {| Date_now := 1717228800000; Math_random := 429 # 10000 |}
           sample_env sample_env demo_user demo_user body_850
           body_unknown_sensor sample_db);
    [reflexivity | apply steps_refl | reflexivity | reflexivity].
Defined.

(** ** The dashboard shows the newest reading *)

Lemma order_by_desc_limit_1_snoc {A} (key : A -> Z) l x :
  (forall a, In a l -> (key a < key x)%Z) ->
  order_by_desc_limit_1 key (l ++ [x]) = Some x.
Proof.
  induction l as [|a l IH]; intro H; simpl; [reflexivity|].
  rewrite IH by (intros; apply H; now right).
  assert (L : (key a < key x)%Z) by (apply H; now left).
  apply Z.ltb_lt in L. now rewrite L.
Qed.

Lemma emissions_of_user_snoc uid d d' stored s :
  db_Sensor d' = db_Sensor d ->
  db_Emission_Data d' = db_Emission_Data d ++ [stored] ->
  sensors_of (Emission_Data.sensor_id stored) d = [s] ->
  emissions_of_user uid d'
  = emissions_of_user uid d ++
    if (Sensor.user_id s =? uid)%Z then [(stored, s)] else [].
Proof.
  intros Es Ee Hs. unfold emissions_of_user. rewrite Es, Ee, flat_map_app.
  f_equal. cbn [flat_map]. rewrite app_nil_r, filter_and.
  fold (sensors_of (Emission_Data.sensor_id stored) d). rewrite Hs.
  cbn [filter]. destruct (Sensor.user_id s =? uid)%Z; reflexivity.
Qed.

(** X23. An accepted reading that is later than every reading the owner of
    its sensor had becomes that owner's current emission on the dashboard,
    and the current emission of every other user stays as it was. *)
Theorem dashboard_shows_new_reading (e : env) (d d' : db) (id : string)
    (ts : Z) (co2 : Q) (pm tp hu : option Q) (sid : string) :
  insert_Emission_Data e id ts (Some co2) pm tp hu (Some sid) d = Some (tt, d') ->
  exists s,
    In s (db_Sensor d) /\ Sensor.sensor_id s = sid /\
    ((forall ed, reading_of_user (Sensor.user_id s) d ed ->
        (Emission_Data.timestamp ed < ts)%Z) ->
     stat_current_emission (dashboard (Sensor.user_id s) d') == co2) /\
    (forall uid, uid <> Sensor.user_id s ->
       stat_current_emission (dashboard uid d')
       = stat_current_emission (dashboard uid d)).
Proof.
  intro H. apply insert_Emission_Data_inv in H.
  destruct H as (v & sn & s & Ev & Es & _ & Hs & H).
  injection Ev as <-. injection Es as <-.
  destruct (sensors_of_In _ _ _ Hs) as [Is Esid]. exists s.
  split; [exact Is|]. split; [exact Esid|].
  assert (X : exists stored,
            db_Sensor d' = db_Sensor d /\
            db_Emission_Data d' = db_Emission_Data d ++ [stored] /\
            Emission_Data.sensor_id stored = sid /\
            Emission_Data.timestamp stored = ts /\
            Emission_Data.co2_value stored = co2).
  { destruct H as [(_ & _ & _ & ->) | (_ & _ & _ & ->)]; eexists;
      cbn [compliant_outcome breach_outcome db_Sensor db_Emission_Data];
      repeat split. }
  destruct X as (stored & E1 & E2 & E3 & E4 & E5).
  rewrite <- E3 in Hs.
  unfold dashboard, get_api_dashboard_stats, stat_current_emission.
  cbn [fst payload user_id]. split.
  - intro Hnew.
    rewrite (emissions_of_user_snoc _ d d' stored s E1 E2 Hs), Z.eqb_refl.
    rewrite order_by_desc_limit_1_snoc.
    + cbn [fst]. rewrite or_zero_eq, E5. reflexivity.
    + intros [ed s'] Hin. cbn [fst]. rewrite E4. apply Hnew.
      apply in_emissions_of_user in Hin as (H1 & H2 & H3 & H4).
      split; [exact H1 | now exists s'].
  - intros uid Hne.
    rewrite (emissions_of_user_snoc _ d d' stored s E1 E2 Hs).
    assert (N : (Sensor.user_id s =? uid)%Z = false)
      by (apply Z.eqb_neq; congruence).
    now rewrite N, app_nil_r.
Qed.

Lemma dashboard_shows_new_reading_witness :
  stat_current_emission (dashboard 1 sample_both) == 1050 /\
  stat_current_emission (dashboard 2 sample_both)
  = stat_current_emission (dashboard 2 (submit sample_850 sample_db)).
Proof.
  destruct (dashboard_shows_new_reading (sub_env sample_1050)
              (submit sample_850 sample_db) sample_both "EM_2024060201"
              20240602080000 1050 (Some (553 # 10)) (Some (298 # 10)) (Some 62)
              "SENSOR_001" eq_refl) as (s & Is & Es & H1 & H2).
  assert (Eu : Sensor.user_id s = 1%Z).
  { vm_compute in Is.
    destruct Is as [<- | [<- | [<- | [<- | []]]]]; vm_compute in Es;
      try reflexivity; discriminate. }
  rewrite Eu in *. split.
  - apply H1. intros ed (I & _). vm_compute in I.
    destruct I as [<- | []]. reflexivity.
  - apply H2. discriminate.
Defined.
